(** * sparsam.dataset: the dataset adapter and its transform pipeline

    A shallow embedding of [src/sparsam/dataset.py]: the abstract class
    [BaseSet] (augmentation hook, normalisation, [__getitem__]) and its
    concrete subclass [ImageSet] (constructor, [__len__], the decode step
    [_get_image_label_pair]).

    Python objects are records of attributes, methods are computations in
    a state-and-exception monad over the running process (the object, the
    random-number generator, the log of library calls), and every call
    into PIL, pydicom or torchvision goes through an interface
    ([Libraries]). *)

From Stdlib Require Import ZArith String List Lia.
From stdpp Require Import base option list strings gmap sorting.

Open Scope Z_scope.
Local Set Warnings "-register-all".

(** ** Python exceptions and results *)

Inductive exn : Type :=
  | IndexError   (* sequence subscript out of range *)
  | ValueError   (* [list.index] of a missing element *)
  | TypeError    (* a value of the wrong class *)
  | LibraryError (msg : string). (* raised inside PIL / pydicom *)

Inductive result (A : Type) : Type :=
  | Ok (a : A)
  | Raise (e : exn).
Arguments Ok {A} a.
Arguments Raise {A} e.

Definition is_ok {A} (r : result A) : bool :=
  match r with Ok _ => true | Raise _ => false end.

(** ** The method monad: state passing with exceptions

    A method body runs on a store [S] (the object and whatever else it
    can touch) and either returns a value or raises; the store is
    returned in both cases, as a Python exception does not roll back
    assignments. *)

Definition Py (S A : Type) : Type := S -> result A * S.

Definition ret {S A} (a : A) : Py S A := fun s => (Ok a, s).

Definition raise {S A} (e : exn) : Py S A := fun s => (Raise e, s).

Definition bind {S A B} (m : Py S A) (k : A -> Py S B) : Py S B :=
  fun s =>
    match m s with
    | (Ok a, s') => k a s'
    | (Raise e, s') => (Raise e, s')
    end.

Definition gets {S A} (f : S -> A) : Py S A := fun s => (Ok (f s), s).

Definition modify {S} (f : S -> S) : Py S unit := fun s => (Ok tt, f s).

Definition lift {S A} (r : result A) : Py S A := fun s => (r, s).

Declare Scope py_scope.
Delimit Scope py_scope with py.
Notation "x <- m ;; k" := (bind m (fun x => k))
  (at level 62, m at level 61, right associativity) : py_scope.
Open Scope py_scope.

(** [[f(x) for x in xs]]: evaluated left to right, the first exception
    ends the comprehension. *)
Fixpoint comprehension {S A B} (f : A -> Py S B) (xs : list A) : Py S (list B) :=
  match xs with
  | [] => ret []
  | x :: xs' =>
      y <- f x ;;
      ys <- comprehension f xs' ;;
      ret (y :: ys)
  end.

(** ** Built-in sequence operations *)

(** [l[i]] on a list or tuple: negative subscripts count from the end. *)
Definition subscript {A} (l : list A) (i : Z) : result A :=
  let n := Z.of_nat (length l) in
  let j := if i <? 0 then i + n else i in
  if (0 <=? j) && (j <? n) then
    match l !! Z.to_nat j with
    | Some x => Ok x
    | None => Raise IndexError
    end
  else Raise IndexError.

(** [l.index(x)]: position of the first element equal to [x]. *)
Fixpoint list_index (l : list string) (x : string) : result Z :=
  match l with
  | [] => Raise ValueError
  | y :: l' =>
      if String.eqb y x then Ok 0
      else match list_index l' x with
           | Ok k => Ok (Z.succ k)
           | Raise e => Raise e
           end
  end.

(** [set(labels)] and [list(...)] of it: the elements without repetition,
    in the order the hash table yields them. *)
Definition py_set (l : list string) : gset string := list_to_set l.
Definition py_list (s : gset string) : list string := elements s.

(** [sorted(l)] on strings: ascending in the lexicographic order of the
    characters' code points. *)
Definition sorted (l : list string) : list string := merge_sort String.le l.

(** ** Values that travel through the pipeline *)

(** [pathlib.Path]: the location and its [suffix] property. *)
Record Path : Type := { location : string; suffix : string }.

(** PIL resampling filters. *)
Inductive resample : Type := NEAREST | BILINEAR | BICUBIC | LANCZOS.

(** The values [img_size] can hold: an int, a tuple or a list. *)
Inductive size_value : Type :=
  | SzInt (n : Z)
  | SzTuple (items : list size_value)
  | SzList (items : list size_value).

(** Calls into the decoding and imaging libraries, as logged. *)
Inductive lib_call : Type :=
  | Call_dcmread (path : Path)
  | Call_pixel_array
  | Call_fromarray (mode : string)
  | Call_open (path : Path)
  | Call_convert (mode : string)
  | Call_resize (size : size_value) (filter : resample).

(** The running process, as far as a method can see it: the object the
    method is called on, the state of the random-number generator, and
    the calls made into the libraries so far. *)
Record process (O : Type) : Type := {
  self : O;
  rng : nat;
  calls : list lib_call
}.
Arguments self {O} _.
Arguments rng {O} _.
Arguments calls {O} _.

(** One draw from the generator. *)
Definition draw {O} : Py (process O) nat :=
  fun s => (Ok (rng s),
            {| self := self s; rng := S (rng s); calls := calls s |}).

(** The process after the library calls [log], nothing else touched. *)
Definition logged {O} (s : process O) (log : list lib_call) : process O :=
  {| self := self s; rng := rng s; calls := calls s ++ log |}.

(** A library call: logged, then its result or exception. *)
Definition call {O A} (c : lib_call) (r : result A) : Py (process O) A :=
  fun s => (r, logged s [c]).

(** The external collaborators: torch tensors, PIL images, pydicom
    datasets, and [sparsam.utils.min_max_normalize_tensor].  File
    contents are fixed, so reading a path is a function of the path. *)
Class Libraries : Type := {
  tensor : Type;
  image : Type;
  ndarray : Type;
  dicom : Type;
  pil_to_tensor : image -> tensor;
  min_max_normalize_tensor : tensor -> Z -> Z -> tensor;
  pydicom_dcmread : Path -> result dicom;
  dicom_pixel_array : dicom -> result ndarray;
  Image_fromarray : ndarray -> string -> result image;
  Image_open : Path -> result image;
  Image_convert : image -> string -> result image;
  Image_resize : image -> size_value -> resample -> result image
}.

(** What [label] can be bound to: an int or a raw label. *)
Inductive label : Type :=
  | LInt (n : Z)
  | LStr (s : string).

Section Values.
Context `{Libraries}.

(** What [img] can be bound to in [__getitem__]; [PyNone] stands for any
    object that is neither an image, a tensor nor a list. *)
Inductive pyval : Type :=
  | PyImage (im : image)
  | PyTensor (t : tensor)
  | PyList (items : list pyval)
  | PyNone.

Definition isinstance_list (v : pyval) : bool :=
  match v with PyList _ => true | _ => false end.

Definition isinstance_Tensor (v : pyval) : bool :=
  match v with PyTensor _ => true | _ => false end.

(** [torchvision.transforms.functional.to_tensor]: accepts an image,
    raises [TypeError] on anything else. *)
Definition to_tensor (pic : pyval) : result pyval :=
  match pic with
  | PyImage im => Ok (PyTensor (pil_to_tensor im))
  | _ => Raise TypeError
  end.

(** The image-like value handed to the normaliser: a tensor as it is,
    anything else through [to_tensor]. *)
Definition as_tensor (img : pyval) : result pyval :=
  if isinstance_Tensor img then Ok img else to_tensor img.

(** A Python callable of one argument that computes from its argument
    alone. *)
Definition callable : Type := pyval -> result pyval.

(** A Python callable of one argument that may also consult the
    random-number generator, as augmentations do: it is handed the draw. *)
Definition augmentation : Type := nat -> pyval -> result pyval.

(** [partial(min_max_normalize_tensor, min_value=0, max_value=1)]. *)
Definition default_normalizer : callable :=
  fun v =>
    match v with
    | PyTensor t => Ok (PyTensor (min_max_normalize_tensor t 0 1))
    | _ => Raise TypeError
    end.

End Values.

(** ** class BaseSet(ABC, Dataset) *)

Module BaseSet.
Section WithLibraries.
Context `{Libraries}.

(** The values the [normalize] parameter and attribute can hold. *)
Inductive normalize_value : Type :=
  | NvBool (b : bool)
  | NvNone
  | NvCallable (f : callable).

Record t : Type := {
  data_augmentation : option augmentation;
  normalize : normalize_value
}.

Definition __init__ (data_augmentation : option augmentation)
    (normalize : normalize_value) : t :=
  let normalize :=
    match normalize with
    | NvBool true => NvCallable default_normalizer
    | other => other
    end in
  {| data_augmentation := data_augmentation; normalize := normalize |}.

(** Truth value of the [normalize] attribute. *)
Definition truthy (n : normalize_value) : bool :=
  match n with
  | NvBool b => b
  | NvNone => false
  | NvCallable _ => true
  end.

(** [self.normalize(img)]. *)
Definition call_normalize (n : normalize_value) (img : pyval) : result pyval :=
  match n with
  | NvCallable f => f img
  | _ => Raise TypeError
  end.



(** A subclass: objects of class [O] carry the base attributes and
    implement the abstract method. *)
Class Subclass (O : Type) : Type := {
  base : O -> t;
  set_base : t -> O -> O;
  _get_image_label_pair : Z -> Py (process O) (pyval * label)
}.

Section Methods.
Context {O : Type} `{Subclass O}.

Definition set_data_augmentation (data_augmentation : option augmentation)
    : Py (process O) unit :=
  modify (fun s =>
    {| self := set_base {| data_augmentation := data_augmentation;
                           normalize := normalize (base (self s)) |} (self s);
       rng := rng s; calls := calls s |}).

Definition _normalize (img : pyval) : Py (process O) pyval :=
  img <- (if negb (isinstance_Tensor img) then lift (to_tensor img)
          else ret img) ;;
  normalize <- gets (fun s => normalize (base (self s))) ;;
  if truthy normalize then lift (call_normalize normalize img)
  else ret img.

Definition __getitem__ (index : Z) : Py (process O) (pyval * label) :=
  pair <- _get_image_label_pair index ;;
  let '(img, label) := pair in
  data_augmentation <- gets (fun s => data_augmentation (base (self s))) ;;
  img <- match data_augmentation with
         | Some f =>
             seed <- draw ;;
             lift (f seed img)
         | None => ret img
         end ;;
  img <- match img with
         | PyList views =>
             views <- comprehension _normalize views ;;
             ret (PyList views)
         | _ => _normalize img
         end ;;
  ret (img, label).

End Methods.
End WithLibraries.
End BaseSet.

(** ** class ImageSet(BaseSet) *)

Module ImageSet.
Section WithLibraries.
Context `{Libraries}.

Record t : Type := {
  super : BaseSet.t;
  img_paths : list Path;
  labels : option (list string);
  class_names : option (list string);
  img_size : option size_value
}.

(** Truth value of a sequence argument: [None] and the empty sequence
    are false. *)
Definition truthy_seq {A} (o : option (list A)) : bool :=
  match o with
  | Some (_ :: _) => true
  | _ => false
  end.

(** Truth value of [img_size]: [None], [0] and empty sequences are false. *)
Definition truthy_size (o : option size_value) : bool :=
  match o with
  | None => false
  | Some (SzInt n) => negb (n =? 0)
  | Some (SzTuple items) | Some (SzList items) =>
      match items with [] => false | _ => true end
  end.

Definition isinstance_tuple (o : option size_value) : bool :=
  match o with
  | Some (SzTuple _) => true
  | _ => false
  end.

Definition __init__ (img_paths : list Path) (labels : option (list string))
    (img_size : option size_value) (data_augmentation : option augmentation)
    (class_names : option (list string))
    (normalize : BaseSet.normalize_value) : t :=
  let super := BaseSet.__init__ data_augmentation normalize in
  let class_names' :=
    if truthy_seq class_names then class_names
    else if truthy_seq labels then
      match labels with
      | Some labels => Some (sorted (py_list (py_set labels)))
      | None => None
      end
    else None in
  let img_size' :=
    if truthy_size img_size && negb (isinstance_tuple img_size) then
      match img_size with
      | Some v => Some (SzTuple [v; v])
      | None => None
      end
    else img_size in
  {| super := super; img_paths := img_paths; labels := labels;
     class_names := class_names'; img_size := img_size' |}.

(** A fresh object in a fresh process. *)
Definition new (obj : t) : process t := {| self := obj; rng := 0%nat; calls := [] |}.

Definition __len__ : Py (process t) Z :=
  gets (fun s => Z.of_nat (length (img_paths (self s)))).

Definition _get_image_label_pair (index : Z) : Py (process t) (pyval * label) :=
  img_paths <- gets (fun s => img_paths (self s)) ;;
  path <- lift (subscript img_paths index) ;;
  img <- (if String.eqb (suffix path) ".dcm" then
            ds <- call (Call_dcmread path) (pydicom_dcmread path) ;;
            arr <- call Call_pixel_array (dicom_pixel_array ds) ;;
            call (Call_fromarray "RGB") (Image_fromarray arr "RGB")
          else
            img <- call (Call_open path) (Image_open path) ;;
            call (Call_convert "RGB") (Image_convert img "RGB")) ;;
  img_size <- gets (fun s => img_size (self s)) ;;
  img <- (if truthy_size img_size then
            match img_size with
            | Some size => call (Call_resize size NEAREST)
                                (Image_resize img size NEAREST)
            | None => ret img
            end
          else ret img) ;;
  labels <- gets (fun s => labels (self s)) ;;
  label <- match labels with
           | Some labels =>
               label <- lift (subscript labels index) ;;
               class_names <- gets (fun s => class_names (self s)) ;;
               match class_names with
               | Some class_names =>
                   k <- lift (list_index class_names label) ;;
                   ret (LInt k)
               | None => ret (LStr label)
               end
           | None => ret (LInt 0)
           end ;;
  ret (PyImage img, label).

#[export] Instance subclass : BaseSet.Subclass t := {|
  BaseSet.base := super;
  BaseSet.set_base := fun b obj =>
    {| super := b; img_paths := img_paths obj; labels := labels obj;
       class_names := class_names obj; img_size := img_size obj |};
  BaseSet._get_image_label_pair := _get_image_label_pair
|}.

Definition set_data_augmentation : option augmentation -> Py (process t) unit :=
  BaseSet.set_data_augmentation.

Definition __getitem__ : Z -> Py (process t) (pyval * label) :=
  BaseSet.__getitem__.

(** *** The blocks of [_get_image_label_pair], named for the statements

    [decode_phases] below proves that the method is their sequence. *)

(** Lines 90-94: the format branch. *)
Definition open_rgb (path : Path) : Py (process t) image :=
  if String.eqb (suffix path) ".dcm" then
    ds <- call (Call_dcmread path) (pydicom_dcmread path) ;;
    arr <- call Call_pixel_array (dicom_pixel_array ds) ;;
    call (Call_fromarray "RGB") (Image_fromarray arr "RGB")
  else
    img <- call (Call_open path) (Image_open path) ;;
    call (Call_convert "RGB") (Image_convert img "RGB").

(** Lines 95-96: the optional resize. *)
Definition resize_block (img_size : option size_value) (img : image) : Py (process t) image :=
  match img_size with
  | Some size =>
      if truthy_size img_size then
        call (Call_resize size NEAREST) (Image_resize img size NEAREST)
      else ret img
  | None => ret img
  end.

(** The image the decode step returns: lines 90-96. *)
Definition image_block (obj : t) (path : Path) : Py (process t) image :=
  img <- open_rgb path ;;
  resize_block (img_size obj) img.

(** Lines 97-102: label resolution. *)
Definition label_block (obj : t) (index : Z) : result label :=
  match labels obj with
  | Some labels =>
      match subscript labels index with
      | Ok raw =>
          match class_names obj with
          | Some class_names =>
              match list_index class_names raw with
              | Ok k => Ok (LInt k)
              | Raise e => Raise e
              end
          | None => Ok (LStr raw)
          end
      | Raise e => Raise e
      end
  | None => Ok (LInt 0)
  end.

(** *** The life of an instance: a sequence of method calls *)

Inductive method_call : Type :=
  | M_set_data_augmentation (data_augmentation : option augmentation)
  | M_getitem (index : Z)
  | M_len.

Definition invoke (m : method_call) (s : process t) : process t :=
  match m with
  | M_set_data_augmentation f => snd (set_data_augmentation f s)
  | M_getitem index => snd (__getitem__ index s)
  | M_len => snd (__len__ s)
  end.

Fixpoint run (ms : list method_call) (s : process t) : process t :=
  match ms with
  | [] => s
  | m :: ms' => run ms' (invoke m s)
  end.

(** *** Predicates used in the statements *)

(** Two objects agree on everything the constructor fixed, the
    augmentation apart. *)
Definition same_configuration (a b : t) : Prop :=
  img_paths a = img_paths b /\ labels a = labels b /\
  class_names a = class_names b /\ img_size a = img_size b /\
  BaseSet.normalize (super a) = BaseSet.normalize (super b).



Definition is_resize_call (c : lib_call) : bool :=
  match c with
  | Call_resize _ _ => true
  | _ => false
  end.

(** In the process [s], the decode step at [index] returns the image of
    the format branch resized to [(w, h)] with the nearest-neighbour
    filter, [resize] being its last library call. *)
Definition decodes_resized (s : process t) (index w h : Z) : Prop :=
  let target := SzTuple [SzInt w; SzInt h] in
  forall out lbl s2,
    _get_image_label_pair index s = (Ok (out, lbl), s2) ->
    exists path raw s1 img,
      subscript (img_paths (self s)) index = Ok path /\
      open_rgb path s = (Ok raw, s1) /\
      Image_resize raw target NEAREST = Ok img /\
      out = PyImage img /\
      s2 = logged s1 [Call_resize target NEAREST].

(** In the process [s], the decode step at [index] never calls [resize]
    and returns the image of the format branch as it is. *)
Definition decodes_unresized (s : process t) (index : Z) : Prop :=
  (forall r s2,
      _get_image_label_pair index s = (r, s2) ->
      exists log, s2 = logged s log /\
                  Forall (fun c => is_resize_call c = false) log) /\
  forall out lbl s2,
    _get_image_label_pair index s = (Ok (out, lbl), s2) ->
    exists path raw,
      subscript (img_paths (self s)) index = Ok path /\
      open_rgb path s = (Ok raw, s2) /\
      out = PyImage raw.

(** [len(paths) == len(labels)] when labels are present. *)
Definition lengths_agree (obj : t) : Prop :=
  forall ls, labels obj = Some ls -> length (img_paths obj) = length ls.

End WithLibraries.

(** The process a method of an [ImageSet] runs in. *)
Abbreviation store := (process t).
End ImageSet.

(** ** A small concrete world

    Images are their dimensions and mode, tensors their shape; every
    [.dcm] file holds a 512 x 512 pixel array, every other readable file
    a 640 x 480 RGBA picture, and [missing.png] does not exist. *)

Module Demo.

Record picture : Type := { dims : Z * Z; mode : string }.

Definition resize_picture (im : picture) (size : size_value) (f : resample)
    : result picture :=
  match size with
  | SzTuple [SzInt w; SzInt h] =>
      if (0 <? w) && (0 <? h) then Ok {| dims := (w, h); mode := mode im |}
      else Raise (LibraryError "height and width must be > 0")
  | _ => Raise TypeError
  end.

#[export] Instance libraries : Libraries := {|
  tensor := list Z;
  image := picture;
  ndarray := Z * Z;
  dicom := Z * Z;
  pil_to_tensor := fun im => [3; snd (dims im); fst (dims im)];
  min_max_normalize_tensor := fun t _ _ => t;
  pydicom_dcmread := fun p =>
    if String.eqb (suffix p) ".dcm" then Ok (512, 512)
    else Raise (LibraryError "InvalidDicomError");
  dicom_pixel_array := fun ds => Ok ds;
  Image_fromarray := fun arr m => Ok {| dims := arr; mode := m |};
  Image_open := fun p =>
    if String.eqb (location p) "missing.png"
    then Raise (LibraryError "FileNotFoundError")
    else Ok {| dims := (640, 480); mode := "RGBA" |};
  Image_convert := fun im m => Ok {| dims := dims im; mode := m |};
  Image_resize := resize_picture
|}.

Definition png (name : string) : Path := {| location := name; suffix := ".png" |}.
Definition dcm (name : string) : Path := {| location := name; suffix := ".dcm" |}.

Definition three_paths : list Path := [png "a.png"; dcm "b.dcm"; png "c.png"].

(** [ImageSet(three_paths, labels=['cat', 'dog', 'cat'])]. *)
Definition cat_dog : ImageSet.t :=
  ImageSet.__init__ three_paths (Some ["cat"; "dog"; "cat"]%string) None None None
    (BaseSet.NvBool true).

(** An augmentation that yields two views of its argument. *)
Definition two_views : augmentation := fun _ v => Ok (PyList [v; v]).

(** A random augmentation: resizes an image to a square whose side is
    taken from the generator. *)
Definition random_square : augmentation :=
  fun seed v =>
    match v with
    | PyImage im =>
        Ok (PyImage {| dims := (Z.of_nat (S seed), Z.of_nat (S seed));
                       mode := mode im |})
    | other => Ok other
    end.

(** [ImageSet(three_paths, data_augmentation=random_square)]. *)
Definition random_set : ImageSet.t :=
  ImageSet.__init__ three_paths None None (Some random_square) None
    (BaseSet.NvBool true).

(** [ImageSet(three_paths, data_augmentation=two_views)]: no labels. *)
Definition two_view_set : ImageSet.t :=
  ImageSet.__init__ three_paths None None (Some two_views) None
    (BaseSet.NvBool true).

(** [ImageSet(three_paths, img_size=0)]. *)
Definition zero_size_set : ImageSet.t :=
  ImageSet.__init__ three_paths None (Some (SzInt 0)) None None
    (BaseSet.NvBool true).

(** [ImageSet(three_paths, img_size=224)]. *)
Definition square_set : ImageSet.t :=
  ImageSet.__init__ three_paths None (Some (SzInt 224)) None None
    (BaseSet.NvBool true).

(** [ImageSet(three_paths, labels=['cat'])]: fewer labels than paths. *)
Definition short_labels : ImageSet.t :=
  ImageSet.__init__ three_paths (Some ["cat"]%string) None None None
    (BaseSet.NvBool true).

(** [ImageSet([], labels=[])]. *)
Definition empty_labels : ImageSet.t :=
  ImageSet.__init__ [] (Some []) None None None (BaseSet.NvBool true).

(** [ImageSet(three_paths, labels=['cat', 'dog', 'cat'],
    class_names=['dog'])]: a vocabulary that lacks a label. *)
Definition dog_only : ImageSet.t :=
  ImageSet.__init__ three_paths (Some ["cat"; "dog"; "cat"]%string) None None
    (Some ["dog"]%string) (BaseSet.NvBool true).



(** [ImageSet(three_paths, labels=['cat', 'dog', 'cat'], normalize=False)]. *)
Definition unnormalized_set : ImageSet.t :=
  ImageSet.__init__ three_paths (Some ["cat"; "dog"; "cat"]%string) None None
    None (BaseSet.NvBool false).

(** [ImageSet(three_paths, img_size=[64, 64])]: the size as a list. *)
Definition list_size_set : ImageSet.t :=
  ImageSet.__init__ three_paths None (Some (SzList [SzInt 64; SzInt 64])) None
    None (BaseSet.NvBool true).

(** [ImageSet([missing.png], labels=['cat'], class_names=['dog'])]. *)
Definition missing_file_set : ImageSet.t :=
  ImageSet.__init__ [png "missing.png"] (Some ["cat"]%string) None None
    (Some ["dog"]%string) (BaseSet.NvBool true).

End Demo.

(** ** Vocabulary for the properties beyond the claims *)

Section Vocabulary.
Context `{Libraries}.
Import ImageSet.

(** The augmentation in force after the calls [ms] on an object that
    started with [init]: the argument of the last
    [set_data_augmentation], if there was one. *)
Fixpoint last_augmentation (ms : list method_call)
    (init : option augmentation) : option augmentation :=
  match ms with
  | [] => init
  | M_set_data_augmentation a :: ms' => last_augmentation ms' a
  | _ :: ms' => last_augmentation ms' init
  end.

(** The file a library call reads, if it reads one. *)
Definition file_read (c : lib_call) : option Path :=
  match c with
  | Call_dcmread p | Call_open p => Some p
  | _ => None
  end.

(** The sizes handed to [resize] in a log. *)
Definition resize_sizes (log : list lib_call) : list size_value :=
  omap (fun c => match c with
                 | Call_resize size _ => Some size
                 | _ => None
                 end) log.

End Vocabulary.

(** ** Proof automation *)


(** ** Lemmas on the built-in operations *)

Section Builtins.

Lemma subscript_nonneg {A} (l : list A) (i : Z) :
  0 <= i < Z.of_nat (length l) ->
  exists x, l !! Z.to_nat i = Some x /\ subscript l i = Ok x.
Proof.
  intros [Hlo Hhi]. unfold subscript.
  destruct (Z.ltb_spec i 0) as [?|_]; [lia|].
  destruct (Z.leb_spec 0 i) as [_|?]; [|lia].
  destruct (Z.ltb_spec i (Z.of_nat (length l))) as [_|?]; [|lia].
  cbn. destruct (lookup_lt_is_Some_2 l (Z.to_nat i)) as [x Hx]; [lia|].
  exists x. by rewrite Hx.
Qed.

Lemma subscript_Ok {A} (l : list A) (i : Z) (x : A) :
  subscript l i = Ok x ->
  - Z.of_nat (length l) <= i < Z.of_nat (length l) /\
  l !! Z.to_nat (if i <? 0 then i + Z.of_nat (length l) else i) = Some x.
Proof.
  unfold subscript.
  destruct (Z.ltb_spec i 0) as [Hneg|Hpos];
    match goal with
    | |- context [(0 <=? ?j)] =>
        destruct (Z.leb_spec 0 j); [|done];
        destruct (Z.ltb_spec j (Z.of_nat (length l))); [|done]
    end; cbn;
    (destruct (l !! _) eqn:E; [|done]); intros [= ->]; (split; [lia|done]).
Qed.

Lemma subscript_nil {A} (i : Z) : subscript (@nil A) i = Raise IndexError.
Proof.
  unfold subscript. cbn [length]. cbv zeta.
  match goal with
  | |- context [(0 <=? ?j) && (?j <? ?n)] =>
      destruct (Z.leb_spec 0 j), (Z.ltb_spec j n); cbn; try done; lia
  end.
Qed.

(** [list_index] finds the first position holding [x]. *)
Lemma list_index_Ok (l : list string) (x : string) (k : Z) :
  list_index l x = Ok k ->
  0 <= k < Z.of_nat (length l) /\
  l !! Z.to_nat k = Some x /\
  forall j, (j < Z.to_nat k)%nat -> l !! j <> Some x.
Proof.
  revert k. induction l as [|y l IH]; intros k; cbn [list_index]; [done|].
  destruct (String.eqb_spec y x) as [->|Hne].
  - intros [= <-]. cbn. split; [lia|]. split; [done|]. intros j Hj. lia.
  - destruct (list_index l x) as [k'|e] eqn:E; [|done].
    intros [= <-]. destruct (IH k' eq_refl) as (Hk & Hx & Hfirst).
    split; [cbn [length]; lia|].
    replace (Z.to_nat (Z.succ k')) with (S (Z.to_nat k')) by lia.
    split; [done|]. intros [|j] Hj; cbn.
    + congruence.
    + apply Hfirst. lia.
Qed.

Lemma list_index_Raise (l : list string) (x : string) (e : exn) :
  list_index l x = Raise e -> e = ValueError /\ x ∉ l.
Proof.
  induction l as [|y l IH]; cbn [list_index].
  - intros [= <-]. split; [done|]. apply not_elem_of_nil.
  - destruct (String.eqb_spec y x) as [->|Hne]; [done|].
    destruct (list_index l x) as [k'|e'] eqn:E; [done|].
    intros [= <-]. destruct (IH eq_refl) as [-> Hnot].
    split; [done|]. rewrite elem_of_cons. intros [->|?]; done.
Qed.

Lemma list_index_elem_of (l : list string) (x : string) :
  x ∈ l -> exists k, list_index l x = Ok k.
Proof.
  intros Hin. destruct (list_index l x) as [k|e] eqn:E; [by exists k|].
  by apply list_index_Raise in E as [_ ?].
Qed.

Lemma list_index_not_elem_of (l : list string) (x : string) :
  x ∉ l -> list_index l x = Raise ValueError.
Proof.
  intros Hnot. destruct (list_index l x) as [k|e] eqn:E.
  - apply list_index_Ok in E as (_ & Hx & _).
    by apply list_elem_of_lookup_2 in Hx.
  - by apply list_index_Raise in E as [-> _].
Qed.

(** [sorted(list(set(l)))] is the ascending list of the distinct
    elements of [l]. *)
Lemma sorted_set_spec (l : list string) :
  let cn := sorted (py_list (py_set l)) in
  Sorted String.le cn /\ NoDup cn /\ forall x, x ∈ cn <-> x ∈ l.
Proof.
  cbn. unfold sorted, py_list, py_set.
  assert (Hperm : merge_sort String.le (elements (list_to_set l : gset string))
                  ≡ₚ elements (list_to_set l : gset string))
    by apply merge_sort_Permutation.
  split; [apply Sorted_merge_sort; apply _|].
  split.
  - rewrite Hperm. apply NoDup_elements.
  - intros x. rewrite Hperm, elem_of_elements, elem_of_list_to_set. done.
Qed.

Lemma sorted_set_nonempty (l : list string) :
  l <> [] -> sorted (py_list (py_set l)) <> [].
Proof.
  intros Hl Hnil. destruct l as [|x l]; [done|].
  pose proof (sorted_set_spec (x :: l)) as Hspec. cbv zeta in Hspec.
  destruct Hspec as (_ & _ & Hmem). rewrite Hnil in Hmem.
  specialize (Hmem x). rewrite elem_of_cons in Hmem.
  apply (not_elem_of_nil x), Hmem. by left.
Qed.

End Builtins.

(** ** The transform pipeline, for any subclass *)

Section Pipeline.
Context `{Libraries} {O : Type} `{!BaseSet.Subclass O}.

(** [_normalize] only reads the object. *)
Lemma normalize_run (img : pyval) (s : process O) :
  BaseSet._normalize img s =
  (match as_tensor img with
   | Ok t =>
       if BaseSet.truthy (BaseSet.normalize (BaseSet.base (self s)))
       then BaseSet.call_normalize (BaseSet.normalize (BaseSet.base (self s))) t
       else Ok t
   | Raise e => Raise e
   end, s).
Proof.
  unfold BaseSet._normalize, as_tensor, bind, gets, lift, ret.
  destruct (isinstance_Tensor img); cbn.
  - by destruct (BaseSet.truthy _).
  - destruct (to_tensor img); [|done]. by destruct (BaseSet.truthy _).
Qed.

Lemma normalize_frame (img : pyval) (s : process O) :
  snd (BaseSet._normalize img s) = s.
Proof. by rewrite normalize_run. Qed.

Lemma comprehension_frame (views : list pyval) (s : process O) :
  snd (comprehension BaseSet._normalize views s) = s.
Proof.
  induction views as [|v views IH]; [done|].
  cbn [comprehension]. unfold bind at 1. rewrite normalize_run.
  destruct (match as_tensor v with Ok _ => _ | Raise _ => _ end); [|done].
  unfold bind at 1.
  destruct (comprehension BaseSet._normalize views s) as [[outs|e] s'];
    cbn in *; by subst.
Qed.

(** The comprehension succeeds exactly when every view normalises, and
    then pairs the views with their results position by position. *)
Lemma comprehension_Ok (views outs : list pyval) (s : process O) :
  fst (comprehension BaseSet._normalize views s) = Ok outs <->
  Forall2 (fun v o => fst (BaseSet._normalize v s) = Ok o) views outs.
Proof.
  revert outs. induction views as [|v views IH]; intros outs.
  - cbn. split.
    + intros [= <-]. constructor.
    + by inversion 1.
  - cbn [comprehension]. unfold bind at 1.
    pose proof (normalize_frame v s) as Hfr.
    destruct (BaseSet._normalize v s) as [[o|e] s1] eqn:Ev; cbn in Hfr; subst s1.
    + unfold bind at 1.
      pose proof (comprehension_frame views s) as Hfr.
      destruct (comprehension BaseSet._normalize views s) as [[os|e] s1] eqn:Ec;
        cbn in Hfr; subst s1; cbn.
      * split.
        -- intros [= <-]. constructor; [by rewrite Ev|]. by apply IH.
        -- inversion 1 as [|? o' ? os' Ho Hos]; subst.
           rewrite Ev in Ho. cbn in Ho. injection Ho as <-.
           apply IH in Hos. cbn in Hos. by injection Hos as <-.
      * split; [done|].
        inversion 1 as [|? o' ? os' Ho Hos]; subst.
        apply IH in Hos. by cbn in Hos.
    + cbn. split; [done|].
      inversion 1 as [|? o' ? os' Ho Hos]; subst.
      rewrite Ev in Ho. by cbn in Ho.
Qed.

(** Normalisation depends on the object through its base attributes only. *)
Lemma normalize_base (img : pyval) (s s' : process O) :
  BaseSet.base (self s) = BaseSet.base (self s') ->
  fst (BaseSet._normalize img s) = fst (BaseSet._normalize img s').
Proof. intros Hb. by rewrite !normalize_run, Hb. Qed.

Lemma comprehension_base (views : list pyval) (s s' : process O) :
  BaseSet.base (self s) = BaseSet.base (self s') ->
  fst (comprehension BaseSet._normalize views s) =
  fst (comprehension BaseSet._normalize views s').
Proof.
  intros Hb.
  destruct (fst (comprehension BaseSet._normalize views s)) as [outs|e] eqn:E.
  - apply comprehension_Ok in E. symmetry. apply comprehension_Ok.
    eapply Forall2_impl; [exact E|]. intros v o <-. symmetry.
    by apply normalize_base.
  - destruct (fst (comprehension BaseSet._normalize views s')) as [outs|e'] eqn:E'.
    + apply comprehension_Ok in E'.
      assert (fst (comprehension BaseSet._normalize views s) = Ok outs) as Hc.
      { apply comprehension_Ok. eapply Forall2_impl; [exact E'|].
        intros v o <-. by apply normalize_base. }
      congruence.
    + revert e e' E E'. induction views as [|v views IH]; intros e e'; [done|].
      cbn [comprehension]. unfold bind at 1 3.
      rewrite !normalize_run, Hb.
      destruct (match as_tensor v with Ok _ => _ | Raise _ => _ end); cbn.
      * unfold bind.
        pose proof (comprehension_frame views s) as Hf.
        pose proof (comprehension_frame views s') as Hf'.
        destruct (comprehension BaseSet._normalize views s) as [[?|?] ?],
                 (comprehension BaseSet._normalize views s') as [[?|?] ?];
          cbn in *; try done.
        intros [= <-] [= <-]. f_equal.
        assert (Raise e0 = Raise e1 :> result (list pyval)) as Heq
          by (by eapply IH). by injection Heq.
      * congruence.
Qed.

(** The stages of [__getitem__], one after the other.  [s2] is the
    process in which normalisation runs: the one the decode step left,
    after the draw if there is an augmentation. *)
Lemma getitem_run (index : Z) (s : process O) :
  BaseSet.__getitem__ index s =
  match BaseSet._get_image_label_pair index s with
  | (Raise e, s1) => (Raise e, s1)
  | (Ok (raw, lbl), s1) =>
      let '(augmented, s2) :=
        match BaseSet.data_augmentation (BaseSet.base (self s1)) with
        | Some f => (f (rng s1) raw, snd (draw s1))
        | None => (Ok raw, s1)
        end in
      match augmented with
      | Raise e => (Raise e, s2)
      | Ok (PyList views) =>
          match fst (comprehension BaseSet._normalize views s2) with
          | Ok outs => (Ok (PyList outs, lbl), s2)
          | Raise e => (Raise e, s2)
          end
      | Ok v =>
          match fst (BaseSet._normalize v s2) with
          | Ok out => (Ok (out, lbl), s2)
          | Raise e => (Raise e, s2)
          end
      end
  end.
Proof.
  unfold BaseSet.__getitem__. unfold bind at 1.
  destruct (BaseSet._get_image_label_pair index s) as [[[raw lbl]|e] s1]; [|done].
  unfold bind at 1, gets at 1. cbn beta iota.
  unfold bind at 1.
  assert (Hone : forall v s2, isinstance_list v = false ->
    bind (BaseSet._normalize v) (fun img => ret (img, lbl)) s2 =
    match fst (BaseSet._normalize v s2) with
    | Ok out => (Ok (out, lbl), s2)
    | Raise e => (Raise e, s2)
    end).
  { intros v s2 _. unfold bind. rewrite normalize_run. cbn.
    by destruct (match as_tensor v with Ok _ => _ | Raise _ => _ end). }
  assert (Hlist : forall views s2,
    bind (bind (comprehension BaseSet._normalize views)
               (fun views0 => ret (PyList views0)))
         (fun img => ret (img, lbl)) s2 =
    match fst (comprehension BaseSet._normalize views s2) with
    | Ok outs => (Ok (PyList outs, lbl), s2)
    | Raise e => (Raise e, s2)
    end).
  { intros views s2. unfold bind.
    pose proof (comprehension_frame views s2) as Hfr.
    destruct (comprehension BaseSet._normalize views s2) as [[outs|e] s3];
      cbn in *; by subst. }
  destruct (BaseSet.data_augmentation (BaseSet.base (self s1))) as [f|]; cbn.
  - destruct (f (rng s1) raw) as [v|e]; [|done].
    destruct v; try (by apply Hone). apply Hlist.
  - destruct raw; try (by apply Hone). apply Hlist.
Qed.

End Pipeline.

(** ** The decode step of [ImageSet] *)

Section Decode.
Context `{Libraries}.
Import ImageSet.

Lemma logged_nil (s : store) : logged s [] = s.
Proof. destruct s. unfold logged. cbn. by rewrite app_nil_r. Qed.

Lemma logged_logged (s : store) (l1 l2 : list lib_call) :
  logged (logged s l1) l2 = logged s (l1 ++ l2).
Proof. unfold logged. cbn. by rewrite app_assoc. Qed.

Lemma call_run {A} (c : lib_call) (r : result A) (s : store) :
  call c r s = (r, logged s [c]).
Proof. done. Qed.

(** The format branch, call by call. *)
Lemma open_rgb_run (path : Path) (s : store) :
  open_rgb path s =
  if String.eqb (suffix path) ".dcm" then
    match pydicom_dcmread path with
    | Raise e => (Raise e, logged s [Call_dcmread path])
    | Ok ds =>
        match dicom_pixel_array ds with
        | Raise e => (Raise e, logged s [Call_dcmread path; Call_pixel_array])
        | Ok arr =>
            (Image_fromarray arr "RGB",
             logged s [Call_dcmread path; Call_pixel_array; Call_fromarray "RGB"])
        end
    end
  else
    match Image_open path with
    | Raise e => (Raise e, logged s [Call_open path])
    | Ok img =>
        (Image_convert img "RGB",
         logged s [Call_open path; Call_convert "RGB"])
    end.
Proof.
  unfold open_rgb. destruct (String.eqb (suffix path) ".dcm").
  - unfold bind. rewrite call_run.
    destruct (pydicom_dcmread path) as [ds|e]; [|done].
    rewrite call_run, logged_logged.
    destruct (dicom_pixel_array ds) as [arr|e]; [|done].
    by rewrite call_run, logged_logged.
  - unfold bind. rewrite call_run.
    destruct (Image_open path) as [img|e]; [|done].
    by rewrite call_run, logged_logged.
Qed.

(** The resize block: one call to [resize] when [img_size] is true,
    nothing otherwise. *)
Lemma resize_block_run (img_size : option size_value) (img : image) (s : store) :
  resize_block img_size img s =
  match img_size with
  | Some size =>
      if truthy_size img_size
      then (Image_resize img size NEAREST, logged s [Call_resize size NEAREST])
      else (Ok img, s)
  | None => (Ok img, s)
  end.
Proof.
  unfold resize_block. destruct img_size as [size|]; [|done].
  by destruct (truthy_size (Some size)).
Qed.

Lemma open_rgb_logged (path : Path) (s : store) :
  exists log, snd (open_rgb path s) = logged s log /\
    forall s', open_rgb path s' = (fst (open_rgb path s), logged s' log).
Proof.
  rewrite open_rgb_run.
  destruct (String.eqb (suffix path) ".dcm") eqn:Esuf.
  - destruct (pydicom_dcmread path) as [ds|e] eqn:E1.
    + destruct (dicom_pixel_array ds) as [arr|e] eqn:E2.
      * eexists. split; [done|]. intros s'.
        by rewrite open_rgb_run, Esuf, E1, E2.
      * eexists. split; [done|]. intros s'.
        by rewrite open_rgb_run, Esuf, E1, E2.
    + eexists. split; [done|]. intros s'.
      by rewrite open_rgb_run, Esuf, E1.
  - destruct (Image_open path) as [img|e] eqn:E1.
    + eexists. split; [done|]. intros s'.
      by rewrite open_rgb_run, Esuf, E1.
    + eexists. split; [done|]. intros s'.
      by rewrite open_rgb_run, Esuf, E1.
Qed.

Lemma resize_block_logged (img_size : option size_value) (img : image) (s : store) :
  exists log, snd (resize_block img_size img s) = logged s log /\
    forall s', resize_block img_size img s' =
               (fst (resize_block img_size img s), logged s' log).
Proof.
  rewrite resize_block_run. destruct img_size as [size|].
  - destruct (truthy_size (Some size)) eqn:Et.
    + eexists. split; [done|]. intros s'.
      by rewrite resize_block_run, Et.
    + exists []. rewrite logged_nil. split; [done|]. intros s'.
      by rewrite resize_block_run, Et, logged_nil.
  - exists []. rewrite logged_nil. split; [done|]. intros s'.
    by rewrite resize_block_run, logged_nil.
Qed.

Lemma image_block_run (obj : t) (path : Path) (s : store) :
  image_block obj path s =
  match open_rgb path s with
  | (Ok raw, s1) => resize_block (img_size obj) raw s1
  | (Raise e, s1) => (Raise e, s1)
  end.
Proof. done. Qed.

(** The image block only appends to the log, and its outcome does not
    depend on the log it starts from. *)
Lemma image_block_logged (obj : t) (path : Path) (s : store) :
  exists log, snd (image_block obj path s) = logged s log /\
    forall s', image_block obj path s' =
               (fst (image_block obj path s), logged s' log).
Proof.
  unfold image_block, bind.
  destruct (open_rgb_logged path s) as (log1 & Hs1 & Hany1).
  destruct (open_rgb path s) as [[raw|e] s1] eqn:E1; cbn in Hs1, Hany1; subst s1.
  - destruct (resize_block_logged (img_size obj) raw (logged s log1))
      as (log2 & Hs2 & Hany2).
    exists (log1 ++ log2). rewrite Hs2, logged_logged. split; [done|].
    intros s'. rewrite Hany1, Hany2. by rewrite logged_logged.
  - exists log1. split; [done|]. intros s'. by rewrite Hany1.
Qed.

(** The method is the sequence of its blocks. *)
Lemma decode_phases (index : Z) (s : store) :
  _get_image_label_pair index s =
  match subscript (img_paths (self s)) index with
  | Raise e => (Raise e, s)
  | Ok path =>
      match image_block (self s) path s with
      | (Raise e, s1) => (Raise e, s1)
      | (Ok img, s1) =>
          match label_block (self s) index with
          | Ok lbl => (Ok (PyImage img, lbl), s1)
          | Raise e => (Raise e, s1)
          end
      end
  end.
Proof.
  unfold _get_image_label_pair. unfold bind at 1, gets at 1.
  unfold bind at 1, lift at 1.
  destruct (subscript (img_paths (self s)) index) as [path|e]; [|done].
  rewrite image_block_run. unfold label_block.
  fold (open_rgb path). unfold bind at 1.
  destruct (open_rgb_logged path s) as (log1 & Hs1 & _).
  destruct (open_rgb path s) as [[raw|e] s1]; cbn in Hs1; subst s1; [|done].
  unfold bind at 1, gets at 1. cbn [self logged].
  unfold bind at 1.
  replace (if truthy_size (img_size (self s))
           then match img_size (self s) with
                | Some size => call (Call_resize size NEAREST)
                                 (Image_resize raw size NEAREST)
                | None => ret raw
                end
           else ret raw)
    with (resize_block (img_size (self s)) raw)
    by (unfold resize_block; destruct (img_size (self s)) as [size|];
        [done | by destruct (truthy_size None)]).
  destruct (resize_block_logged (img_size (self s)) raw (logged s log1))
    as (log2 & Hs2 & _).
  destruct (resize_block (img_size (self s)) raw (logged s log1))
    as [[img|e] s2]; cbn in Hs2; subst s2; [|done].
  unfold bind at 1, gets at 1. cbn [self logged].
  unfold bind at 1.
  destruct (labels (self s)) as [ls|]; [|done].
  unfold bind at 1, lift at 1.
  destruct (subscript ls index) as [raw_label|e]; [|done].
  unfold bind at 1, gets at 1. cbn [self logged].
  destruct (class_names (self s)) as [cn|]; [|done].
  unfold bind at 1, lift at 1.
  by destruct (list_index cn raw_label).
Qed.

(** The decode step leaves the object alone, and its outcome and the
    calls it makes are the same from any log. *)
Lemma decode_logged (index : Z) (s : store) :
  exists log, forall s', self s' = self s ->
    _get_image_label_pair index s' =
    (fst (_get_image_label_pair index s), logged s' log).
Proof.
  rewrite decode_phases.
  destruct (subscript (img_paths (self s)) index) as [path|e] eqn:Ep.
  - destruct (image_block_logged (self s) path s) as (log & Hs1 & Hany).
    exists log. intros s' Hself. rewrite decode_phases, Hself, Ep, Hany.
    destruct (image_block (self s) path s) as [[img|e] s1]; cbn; [|done].
    by destruct (label_block (self s) index).
  - exists []. intros s' Hself. by rewrite decode_phases, Hself, Ep, logged_nil.
Qed.

Lemma getitem_self (index : Z) (s : store) :
  self (snd (__getitem__ index s)) = self s.
Proof.
  destruct (decode_logged index s) as (log & Hany).
  unfold __getitem__. rewrite getitem_run.
  change (BaseSet._get_image_label_pair index s)
    with (_get_image_label_pair index s).
  rewrite (Hany s eq_refl).
  destruct (fst (_get_image_label_pair index s)) as [[raw lbl]|e]; [|done].
  destruct (BaseSet.data_augmentation _) as [f|].
  - destruct (f _ raw) as [v|e]; [|done].
    destruct v as [im|t|views|];
      try (by destruct (fst (BaseSet._normalize _ _))).
    by destruct (fst (comprehension BaseSet._normalize views _)).
  - destruct raw as [im|t|views|];
      try (by destruct (fst (BaseSet._normalize _ _))).
    by destruct (fst (comprehension BaseSet._normalize views _)).
Qed.

(** Without an augmentation, the outcome of a retrieval and the calls it
    makes depend on the object alone, and the generator is not advanced. *)
Lemma getitem_no_augmentation (index : Z) (s : store) :
  BaseSet.data_augmentation (super (self s)) = None ->
  exists log, forall s', self s' = self s ->
    __getitem__ index s' = (fst (__getitem__ index s), logged s' log).
Proof.
  intros Hnone.
  destruct (decode_logged index s) as (log & Hany). exists log.
  assert (Hrun : forall s', self s' = self s ->
    __getitem__ index s' =
    (match fst (_get_image_label_pair index s) with
     | Raise e => Raise e
     | Ok (PyList views, lbl) =>
         match fst (comprehension BaseSet._normalize views s) with
         | Ok outs => Ok (PyList outs, lbl)
         | Raise e => Raise e
         end
     | Ok (v, lbl) =>
         match fst (BaseSet._normalize v s) with
         | Ok out => Ok (out, lbl)
         | Raise e => Raise e
         end
     end, logged s' log)).
  { intros s' Hself. unfold __getitem__. rewrite getitem_run.
    change (BaseSet._get_image_label_pair index s')
      with (_get_image_label_pair index s').
    rewrite (Hany s' Hself).
    destruct (fst (_get_image_label_pair index s)) as [[raw lbl]|e]; [|done].
    assert (Hb : BaseSet.base (self (logged s' log)) = BaseSet.base (self s))
      by (cbn; by rewrite Hself).
    rewrite Hb. change (BaseSet.base (self s)) with (super (self s)).
    rewrite Hnone.
    destruct raw as [im|t|views|];
      try (rewrite (normalize_base _ _ _ Hb);
           by destruct (fst (BaseSet._normalize _ s))).
    rewrite (comprehension_base _ _ _ Hb).
    by destruct (fst (comprehension BaseSet._normalize views s)). }
  intros s' Hself. rewrite (Hrun s' Hself).
  by rewrite (Hrun s eq_refl).
Qed.

(** No method touches what the constructor fixed; only
    [set_data_augmentation] changes the object at all. *)
Lemma invoke_configuration (m : method_call) (s : store) :
  same_configuration (self (invoke m s)) (self s).
Proof.
  destruct m as [f|index|]; cbn [invoke].
  - done.
  - by rewrite getitem_self.
  - done.
Qed.

Lemma run_configuration (ms : list method_call) (s : store) :
  same_configuration (self (run ms s)) (self s).
Proof.
  revert s. induction ms as [|m ms IH]; intros s; cbn [run]; [done|].
  destruct (IH (invoke m s)) as (H1 & H2 & H3 & H4 & H5).
  destruct (invoke_configuration m s) as (G1 & G2 & G3 & G4 & G5).
  repeat split; congruence.
Qed.

(** Retrievals alone leave the whole object as it is. *)
Lemma run_getitems_self (js : list Z) (s : store) :
  self (run (map M_getitem js) s) = self s.
Proof.
  revert s. induction js as [|j js IH]; intros s; cbn; [done|].
  by rewrite IH, getitem_self.
Qed.

End Decode.

(** ** The stages of a retrieval *)

Section Retrieval.
Context `{Libraries} {O : Type} `{!BaseSet.Subclass O}.

(** C1. With an augmentation callable configured, [__getitem__] runs
    decode, then the augmentation on the decoded value as it is (image
    or list alike), then normalisation: on a list result, [_normalize]
    on each element, giving a list of the same length in the same order
    (or the exception of the first element that fails); on any other
    result, [_normalize] once.  An exception of the augmentation is the
    outcome of the retrieval. *)
Theorem C1_getitem_stage_order (index : Z) (s s1 : process O) (raw : pyval)
    (lbl : label) (f : augmentation) :
  BaseSet._get_image_label_pair index s = (Ok (raw, lbl), s1) ->
  BaseSet.data_augmentation (BaseSet.base (self s1)) = Some f ->
  let s2 := snd (draw s1) in
  match f (rng s1) raw with
  | Raise e => BaseSet.__getitem__ index s = (Raise e, s2)
  | Ok (PyList views) =>
      (forall outs,
          Forall2 (fun v o => fst (BaseSet._normalize v s2) = Ok o) views outs ->
          BaseSet.__getitem__ index s = (Ok (PyList outs, lbl), s2)) /\
      (forall r s3,
          BaseSet.__getitem__ index s = (Ok r, s3) ->
          exists outs,
            r = (PyList outs, lbl) /\ s3 = s2 /\
            length outs = length views /\
            forall k v, views !! k = Some v ->
              exists o, outs !! k = Some o /\
                        fst (BaseSet._normalize v s2) = Ok o) /\
      (forall e, fst (comprehension BaseSet._normalize views s2) = Raise e ->
                 BaseSet.__getitem__ index s = (Raise e, s2))
  | Ok v =>
      BaseSet.__getitem__ index s =
      (match fst (BaseSet._normalize v s2) with
       | Ok out => Ok (out, lbl)
       | Raise e => Raise e
       end, s2)
  end.
Proof.
  intros Hdec Haug s2. rewrite getitem_run, Hdec, Haug. fold s2.
  destruct (f (rng s1) raw) as [v|e]; [|done].
  destruct v as [im|t|views|];
    try (by destruct (fst (BaseSet._normalize _ s2))).
  split; [|split].
  - intros outs Hall. apply comprehension_Ok in Hall. by rewrite Hall.
  - intros r s3.
    destruct (fst (comprehension BaseSet._normalize views s2)) as [outs|e] eqn:E;
      [|done].
    intros [= <- <-]. exists outs. apply comprehension_Ok in E.
    split; [done|]. split; [done|].
    split; [symmetry; by eapply Forall2_length|].
    intros k v Hk.
    destruct (Forall2_lookup_l _ _ _ _ _ E Hk) as (o & Ho & Hn). by exists o.
  - intros e ->. done.
Qed.


End Retrieval.

(** ** The decode step: labels and formats *)

Section DecodeClaims.
Context `{Libraries}.
Import ImageSet.

(** C2. At an index whose image block succeeds, the decode step returns
    that image with a label fixed by one of three exclusive modes: the
    int 0 when [labels] is None; the position of the raw label in
    [class_names] (its first occurrence) when both are set and the raw
    label occurs there; the raw label itself when [labels] is set and
    [class_names] is None. *)
Theorem C2_label_modes (s s1 : store) (index : Z) (path : Path) (img : image) :
  subscript (img_paths (self s)) index = Ok path ->
  image_block (self s) path s = (Ok img, s1) ->
  match labels (self s), class_names (self s) with
  | None, _ =>
      _get_image_label_pair index s = (Ok (PyImage img, LInt 0), s1)
  | Some ls, Some cn =>
      forall raw, subscript ls index = Ok raw -> raw ∈ cn ->
        exists k,
          _get_image_label_pair index s = (Ok (PyImage img, LInt k), s1) /\
          0 <= k < Z.of_nat (length cn) /\
          cn !! Z.to_nat k = Some raw /\
          forall j, (j < Z.to_nat k)%nat -> cn !! j <> Some raw
  | Some ls, None =>
      forall raw, subscript ls index = Ok raw ->
        _get_image_label_pair index s = (Ok (PyImage img, LStr raw), s1)
  end.
Proof.
  intros Hp Himg. rewrite decode_phases, Hp, Himg. unfold label_block.
  destruct (labels (self s)) as [ls|]; [|done].
  destruct (class_names (self s)) as [cn|].
  - intros raw -> Hin.
    destruct (list_index_elem_of cn raw Hin) as [k Hk]. rewrite Hk.
    exists k. split; [done|]. by apply list_index_Ok.
  - by intros raw ->.
Qed.

(** C7. When [labels] and [class_names] are both set and the raw label
    at the index is not in [class_names], [list.index] raises
    [ValueError]: the retrieval returns nothing, and wherever the image
    block succeeds that [ValueError] is the outcome of the decode step
    and of [__getitem__]. *)
Theorem C7_missing_class_raises (s : store) (index : Z)
    (ls cn : list string) (raw : string) :
  labels (self s) = Some ls ->
  class_names (self s) = Some cn ->
  subscript ls index = Ok raw ->
  raw ∉ cn ->
  list_index cn raw = Raise ValueError /\
  is_ok (fst (_get_image_label_pair index s)) = false /\
  is_ok (fst (__getitem__ index s)) = false /\
  forall path img s1,
    subscript (img_paths (self s)) index = Ok path ->
    image_block (self s) path s = (Ok img, s1) ->
    _get_image_label_pair index s = (Raise ValueError, s1) /\
    __getitem__ index s = (Raise ValueError, s1).
Proof.
  intros Hls Hcn Hraw Hnot.
  pose proof (list_index_not_elem_of cn raw Hnot) as Hidx.
  assert (Hlbl : label_block (self s) index = Raise ValueError)
    by (unfold label_block; by rewrite Hls, Hraw, Hcn, Hidx).
  assert (Hdec : is_ok (fst (_get_image_label_pair index s)) = false).
  { rewrite decode_phases, Hlbl.
    destruct (subscript (img_paths (self s)) index) as [path|e]; [|done].
    by destruct (image_block (self s) path s) as [[img|e] s1]. }
  split; [done|]. split; [done|]. split.
  - unfold __getitem__. rewrite getitem_run.
    change (BaseSet._get_image_label_pair index s)
      with (_get_image_label_pair index s).
    destruct (_get_image_label_pair index s) as [[[raw' lbl]|e] s1]; done.
  - intros path img s1 Hp Himg.
    assert (Hd : _get_image_label_pair index s = (Raise ValueError, s1))
      by (by rewrite decode_phases, Hp, Himg, Hlbl).
    split; [done|]. unfold __getitem__. rewrite getitem_run.
    change (BaseSet._get_image_label_pair index s)
      with (_get_image_label_pair index s).
    by rewrite Hd.
Qed.


End DecodeClaims.

(** ** The target size *)

Section ResizeClaims.
Context `{Libraries}.
Import ImageSet.

Lemma tuple_size_decodes_resized (s : store) (index w h : Z) :
  img_size (self s) = Some (SzTuple [SzInt w; SzInt h]) ->
  decodes_resized s index w h.
Proof.
  intros Hsize out lbl s2.
  rewrite decode_phases.
  destruct (subscript (img_paths (self s)) index) as [path|e]; [|done].
  rewrite image_block_run.
  destruct (open_rgb path s) as [[raw|e] s1] eqn:Eo; [|done].
  rewrite resize_block_run, Hsize. cbn [truthy_size].
  destruct (Image_resize raw (SzTuple [SzInt w; SzInt h]) NEAREST) as [img|e] eqn:Er;
    [|done].
  destruct (label_block (self s) index) as [lbl0|e]; [|done].
  intros [= <- <- <-]. by exists path, raw, s1, img.
Qed.

Lemma false_size_decodes_unresized (s : store) (index : Z) :
  truthy_size (img_size (self s)) = false ->
  decodes_unresized s index.
Proof.
  intros Hfalse.
  assert (Hblock : forall raw s1,
    resize_block (img_size (self s)) raw s1 = (Ok raw, s1)).
  { intros raw s1. rewrite resize_block_run.
    destruct (img_size (self s)) as [size|]; [|done]. by rewrite Hfalse. }
  split.
  - intros r s2. rewrite decode_phases.
    destruct (subscript (img_paths (self s)) index) as [path|e].
    + rewrite image_block_run, open_rgb_run.
      destruct (String.eqb (suffix path) ".dcm");
        repeat match goal with
        | |- context [match ?x with Ok _ => _ | Raise _ => _ end] =>
            destruct x
        | |- context [resize_block _ _ _] => rewrite Hblock
        end;
        intros [= <- <-]; eexists; (split; [done|]); by repeat constructor.
    + intros [= <- <-]. exists []. by rewrite logged_nil.
  - intros out lbl s2. rewrite decode_phases.
    destruct (subscript (img_paths (self s)) index) as [path|e]; [|done].
    rewrite image_block_run.
    destruct (open_rgb path s) as [[raw|e] s1] eqn:Eo; [|done].
    rewrite Hblock.
    destruct (label_block (self s) index) as [lbl0|e]; [|done].
    intros [= <- <- <-]. by exists path, raw.
Qed.

(** A size given as a list is not a tuple, so the constructor pairs the
    list with itself. *)
Lemma list_size_is_paired (paths : list Path) (w h : Z) :
  img_size (__init__ paths None (Some (SzList [SzInt w; SzInt h])) None None
              (BaseSet.NvBool true)) =
  Some (SzTuple [SzList [SzInt w; SzInt h]; SzList [SzInt w; SzInt h]]).
Proof. done. Qed.

(** C5, as the code has it.  A non-zero int [n] is stored as the tuple
    [(n, n)], a tuple [(w, h)] as it is; with either, an image the
    decode step returns is the one [resize] gave for that size with the
    NEAREST filter, whatever the opened image was, and so has that size
    under PIL's contract for [resize].  With [img_size] None, and with
    the int 0, the decode step makes no call to [resize] and returns the
    opened image. *)
Theorem C5_resize_to_target (paths : list Path) (lbls : option (list string))
    (size_arg : option size_value) (aug : option augmentation)
    (cn : option (list string)) (norm : BaseSet.normalize_value)
    (s : store) (index : Z) :
  self s = __init__ paths lbls size_arg aug cn norm ->
  (forall n, size_arg = Some (SzInt n) -> n <> 0 ->
     img_size (self s) = Some (SzTuple [SzInt n; SzInt n]) /\
     decodes_resized s index n n) /\
  (forall w h, size_arg = Some (SzTuple [SzInt w; SzInt h]) ->
     img_size (self s) = Some (SzTuple [SzInt w; SzInt h]) /\
     decodes_resized s index w h) /\
  (forall w h, img_size (self s) = Some (SzTuple [SzInt w; SzInt h]) ->
     (forall path raw s1 img lbl,
        subscript paths index = Ok path ->
        open_rgb path s = (Ok raw, s1) ->
        Image_resize raw (SzTuple [SzInt w; SzInt h]) NEAREST = Ok img ->
        label_block (self s) index = Ok lbl ->
        _get_image_label_pair index s =
        (Ok (PyImage img, lbl),
         logged s1 [Call_resize (SzTuple [SzInt w; SzInt h]) NEAREST])) /\
     (forall size_of : image -> Z * Z,
        (forall im im',
           Image_resize im (SzTuple [SzInt w; SzInt h]) NEAREST = Ok im' ->
           size_of im' = (w, h)) ->
        forall img lbl s2,
          _get_image_label_pair index s = (Ok (PyImage img, lbl), s2) ->
          size_of img = (w, h))) /\
  (size_arg = None \/ size_arg = Some (SzInt 0) ->
     truthy_size (img_size (self s)) = false /\ decodes_unresized s index).
Proof.
  intros Hself. split; [|split; [|split]].
  - intros n -> Hn.
    assert (Hsize : img_size (self s) = Some (SzTuple [SzInt n; SzInt n])).
    { rewrite Hself. cbn. by destruct (Z.eqb_spec n 0). }
    split; [done|]. by apply tuple_size_decodes_resized.
  - intros w h ->.
    assert (Hsize : img_size (self s) = Some (SzTuple [SzInt w; SzInt h]))
      by (by rewrite Hself).
    split; [done|]. by apply tuple_size_decodes_resized.
  - intros w h Hsize. split.
    + intros path raw s1 img lbl Hp Ho Hr Hl.
      rewrite decode_phases.
      replace (img_paths (self s)) with paths by (by rewrite Hself).
      rewrite Hp, image_block_run, Ho, resize_block_run, Hsize.
      cbn [truthy_size]. by rewrite Hr, Hl.
    + intros size_of Hcontract img lbl s2 Hdec.
      destruct (tuple_size_decodes_resized s index w h Hsize _ _ _ Hdec)
        as (path & raw & s1 & img' & _ & _ & Hr & [= ->] & _).
      by eapply Hcontract.
  - intros Harg.
    assert (Hfalse : truthy_size (img_size (self s)) = false)
      by (rewrite Hself; by destruct Harg as [-> | ->]).
    split; [done|]. by apply false_size_decodes_unresized.
Qed.

End ResizeClaims.

(** ** The life of an instance *)

Section LifetimeClaims.
Context `{Libraries}.
Import ImageSet.

Lemma len_run (s : store) :
  __len__ s = (Ok (Z.of_nat (length (img_paths (self s)))), s).
Proof. done. Qed.

(** The label a retrieval returns is the one of its decode step. *)
Lemma getitem_label (index : Z) (s s2 : store) (out : pyval) (lbl : label) :
  __getitem__ index s = (Ok (out, lbl), s2) ->
  exists img, label_block (self s) index = Ok lbl /\
              fst (_get_image_label_pair index s) = Ok (PyImage img, lbl).
Proof.
  unfold __getitem__. rewrite getitem_run.
  change (BaseSet._get_image_label_pair index s)
    with (_get_image_label_pair index s).
  rewrite decode_phases.
  destruct (subscript (img_paths (self s)) index) as [path|e]; [|done].
  destruct (image_block (self s) path s) as [[img|e] s1]; [|done].
  destruct (label_block (self s) index) as [lbl0|e]; [|done].
  cbv zeta.
  destruct (match BaseSet.data_augmentation _ with
            | Some f => _
            | None => _
            end) as [[v|e] s3]; [|done].
  destruct v as [im|t|views|];
    try (destruct (fst (BaseSet._normalize _ _)); [|done];
         intros [= <- <- <-]; by exists img).
  destruct (fst (comprehension BaseSet._normalize views s3)); [|done].
  intros [= <- <- <-]. by exists img.
Qed.

(** C8. A retrieval returns the object as it was: it assigns to no
    attribute.  With no augmentation configured it also draws nothing
    from the generator, and retrieving an index again, straight away or
    after any number of other retrievals, gives the same outcome: the
    same tensors and label, or the same exception. *)
Theorem C8_retrieval_is_repeatable (s : store) (index : Z) (js : list Z) :
  self (snd (__getitem__ index s)) = self s /\
  (BaseSet.data_augmentation (super (self s)) = None ->
   let s' := run (map M_getitem js) s in
   self s' = self s /\
   rng (snd (__getitem__ index s)) = rng s /\
   fst (__getitem__ index s') = fst (__getitem__ index s) /\
   fst (__getitem__ index (snd (__getitem__ index s))) =
   fst (__getitem__ index s)).
Proof.
  split; [apply getitem_self|]. intros Hnone s'.
  assert (Hself : self s' = self s) by apply run_getitems_self.
  destruct (getitem_no_augmentation index s Hnone) as (log & Hany).
  split; [done|]. split; [by rewrite (Hany s eq_refl)|].
  split; [by rewrite (Hany s' Hself)|].
  by rewrite (Hany (snd (__getitem__ index s)) (getitem_self index s)).
Qed.

(** C9, as the code has it.  The constructor stores [img_paths] and
    [labels] as they are given and compares nothing; no method changes
    either, so when the two sequences are given with equal lengths the
    lengths agree for the life of the instance.  [__len__] returns
    [len(img_paths)] and leaves the object alone. *)
Theorem C9_lengths_as_given (paths : list Path) (ls : list string)
    (size : option size_value) (aug : option augmentation)
    (cn : option (list string)) (norm : BaseSet.normalize_value)
    (ms : list method_call) :
  let obj := __init__ paths (Some ls) size aug cn norm in
  let s := run ms (new obj) in
  img_paths (self s) = paths /\
  labels (self s) = Some ls /\
  (length paths = length ls -> lengths_agree (self s)) /\
  __len__ s = (Ok (Z.of_nat (length paths)), s).
Proof.
  intros obj s.
  destruct (run_configuration ms (new obj)) as (Hp & Hl & _).
  fold s in Hp, Hl. cbn in Hp, Hl.
  split; [done|]. split; [done|]. split.
  - intros Hlen ls' Hls'. rewrite Hl in Hls'. injection Hls' as <-.
    by rewrite Hp.
  - by rewrite len_run, Hp.
Qed.

(** C4, as the code has it.  When [labels] is given and not empty and
    [class_names] is not given, the constructor sets [class_names] to
    [sorted(list(set(labels)))]: ascending, without repetition, with
    exactly the values of [labels]; no method changes it afterwards.
    With labels [cat, dog, cat] it is [cat, dog], and a retrieval of
    index 0 returns label 0, one of index 1 label 1. *)
Theorem C4_derived_class_names (paths : list Path) (ls : list string)
    (size : option size_value) (aug : option augmentation)
    (norm : BaseSet.normalize_value) :
  ls <> [] ->
  let obj := __init__ paths (Some ls) size aug None norm in
  exists cn,
    class_names obj = Some cn /\
    cn = sorted (py_list (py_set ls)) /\
    Sorted String.le cn /\ NoDup cn /\ (forall x, x ∈ cn <-> x ∈ ls) /\
    (forall ms, class_names (self (run ms (new obj))) = Some cn) /\
    (ls = ["cat"; "dog"; "cat"]%string ->
       cn = ["cat"; "dog"]%string /\
       forall ms index, index = 0 \/ index = 1 ->
         let s := run ms (new obj) in
         (forall out lbl s2,
             __getitem__ index s = (Ok (out, lbl), s2) -> lbl = LInt index) /\
         (forall path img s1,
             subscript paths index = Ok path ->
             image_block (self s) path s = (Ok img, s1) ->
             _get_image_label_pair index s =
             (Ok (PyImage img, LInt index), s1))).
Proof.
  intros Hne obj. exists (sorted (py_list (py_set ls))).
  assert (Hcn : class_names obj = Some (sorted (py_list (py_set ls))))
    by (by destruct ls).
  destruct (sorted_set_spec ls) as (Hsorted & Hnodup & Hmem).
  split; [done|]. split; [done|]. split; [done|]. split; [done|].
  split; [done|].
  assert (Hlife : forall ms,
    class_names (self (run ms (new obj))) = Some (sorted (py_list (py_set ls)))).
  { intros ms. destruct (run_configuration ms (new obj)) as (_ & _ & Hc & _).
    by rewrite Hc. }
  split; [done|].
  intros ->. assert (Hv : sorted (py_list (py_set ["cat"; "dog"; "cat"]%string))
                          = ["cat"; "dog"]%string) by (by vm_compute).
  split; [done|]. intros ms index Hindex s.
  destruct (run_configuration ms (new obj)) as (Hp & Hl & _ & _).
  fold s in Hp, Hl. cbn in Hp, Hl.
  assert (Hblock : label_block (self s) index = Ok (LInt index)).
  { unfold label_block. rewrite Hl. unfold s. rewrite Hlife, Hv.
    by destruct Hindex as [-> | ->]. }
  split.
  - intros out lbl s2 Hget.
    destruct (getitem_label _ _ _ _ _ Hget) as (_ & Hlbl & _). congruence.
  - intros path img s1 Hpath Himg.
    rewrite decode_phases, Hp, Hpath, Himg. by rewrite Hblock.
Qed.

(** C10. With a non-empty [labels] the constructor always sets
    [class_names], given or derived, so for the life of the instance a
    label a retrieval returns is an int, the position in [class_names]
    of the raw label, never the raw label; the decode step returns it
    wherever the image block succeeds and the raw label occurs in
    [class_names], which a derived [class_names] guarantees.  The
    constructor leaves [class_names] None with [labels] set only when
    [labels] is empty, and then no index has a label to return. *)
Theorem C10_class_index_whenever_labelled (paths : list Path) (ls : list string)
    (size : option size_value) (aug : option augmentation)
    (cn_arg : option (list string)) (norm : BaseSet.normalize_value) :
  ls <> [] ->
  let obj := __init__ paths (Some ls) size aug cn_arg norm in
  exists cn,
    class_names obj = Some cn /\
    (forall ms index out lbl s2,
        __getitem__ index (run ms (new obj)) = (Ok (out, lbl), s2) ->
        exists k raw,
          lbl = LInt k /\ subscript ls index = Ok raw /\
          0 <= k /\ cn !! Z.to_nat k = Some raw) /\
    (forall ms index path img s1 raw,
        let s := run ms (new obj) in
        subscript paths index = Ok path ->
        image_block (self s) path s = (Ok img, s1) ->
        subscript ls index = Ok raw ->
        raw ∈ cn ->
        exists k, _get_image_label_pair index s =
                  (Ok (PyImage img, LInt k), s1)) /\
    (truthy_seq cn_arg = false -> forall raw, raw ∈ ls -> raw ∈ cn) /\
    (forall ls' index,
        let obj' := __init__ paths (Some ls') size aug cn_arg norm in
        class_names obj' = None ->
        ls' = [] /\ label_block obj' index = Raise IndexError).
Proof.
  intros Hne obj.
  assert (Hex : exists cn, class_names obj = Some cn /\
                  (truthy_seq cn_arg = false -> forall raw, raw ∈ ls -> raw ∈ cn)).
  { unfold obj, __init__. cbn [class_names].
    destruct (truthy_seq cn_arg) eqn:Et.
    - destruct cn_arg as [cn|]; [|done]. by exists cn.
    - destruct ls as [|x ls]; [done|]. cbn [truthy_seq].
      eexists. split; [done|]. intros _ raw Hraw.
      by apply (sorted_set_spec (x :: ls)). }
  destruct Hex as (cn & Hcn & Hder). exists cn.
  assert (Hconf : forall ms,
    img_paths (self (run ms (new obj))) = paths /\
    labels (self (run ms (new obj))) = Some ls /\
    class_names (self (run ms (new obj))) = Some cn).
  { intros ms.
    destruct (run_configuration ms (new obj)) as (Hp & Hl & Hc & _).
    rewrite Hp, Hl, Hc. by rewrite <- Hcn. }
  split; [done|]. split; [|split; [|split; [done|]]].
  - intros ms index out lbl s2 Hget.
    destruct (getitem_label _ _ _ _ _ Hget) as (_ & Hlbl & _).
    destruct (Hconf ms) as (_ & Hl & Hc).
    unfold label_block in Hlbl. rewrite Hl, Hc in Hlbl.
    destruct (subscript ls index) as [raw|e]; [|done].
    destruct (list_index cn raw) as [k|e] eqn:Ek; [|done].
    injection Hlbl as <-. exists k, raw.
    apply list_index_Ok in Ek as ([Hk _] & Hx & _). done.
  - intros ms index path img s1 raw s Hpath Himg Hraw Hin.
    destruct (Hconf ms) as (Hp & Hl & Hc). fold s in Hp, Hl, Hc.
    destruct (list_index_elem_of cn raw Hin) as [k Hk]. exists k.
    rewrite decode_phases, Hp, Hpath, Himg. unfold label_block.
    by rewrite Hl, Hraw, Hc, Hk.
  - intros ls' index obj' Hnone.
    assert (Hls' : ls' = []).
    { unfold obj', __init__ in Hnone. cbn [class_names] in Hnone.
      destruct (truthy_seq cn_arg) eqn:Et.
      - destruct cn_arg; done.
      - by destruct ls'. }
    split; [done|]. subst ls'.
    unfold label_block. cbn [labels obj' __init__].
    by rewrite subscript_nil.
Qed.

End LifetimeClaims.

(** ** The claims at work in the concrete world *)

Section Examples.
Import Demo ImageSet.

(** With a random augmentation the second retrieval of an index differs
    from the first: the condition of C8 is needed. *)
Lemma random_augmentation_not_repeatable :
  let s := new random_set in
  fst (__getitem__ 0 (snd (__getitem__ 0 s))) <> fst (__getitem__ 0 s).
Proof. vm_compute. discriminate. Qed.

Lemma C1_witness :
  __getitem__ 0 (new two_view_set) =
  (Ok (PyList [PyTensor [3; 480; 640]; PyTensor [3; 480; 640]], LInt 0),
   {| self := two_view_set; rng := 1%nat;
      calls := [Call_open (png "a.png"); Call_convert "RGB"] |}).
Proof.
  pose proof (C1_getitem_stage_order (O := ImageSet.t) 0 (new two_view_set)
    (snd (_get_image_label_pair 0 (new two_view_set)))
    (PyImage {| dims := (640, 480); mode := "RGB" |}) (LInt 0) two_views
    eq_refl eq_refl) as Hc.
  destruct Hc as (Hall & _).
  apply Hall. repeat constructor.
Defined.

Lemma C2_witness :
  exists k,
    _get_image_label_pair 1 (new cat_dog) =
    (Ok (PyImage {| dims := (512, 512); mode := "RGB" |}, LInt k),
     logged (new cat_dog)
       [Call_dcmread (dcm "b.dcm"); Call_pixel_array; Call_fromarray "RGB"]) /\
    k = 1.
Proof.
  pose proof (C2_label_modes (new cat_dog)
    (logged (new cat_dog)
       [Call_dcmread (dcm "b.dcm"); Call_pixel_array; Call_fromarray "RGB"])
    1 (dcm "b.dcm") {| dims := (512, 512); mode := "RGB" |}
    eq_refl eq_refl) as Hc.
  assert (Hin : "dog"%string ∈ ["cat"; "dog"]%string)
    by (apply elem_of_cons; right; apply elem_of_cons; by left).
  destruct (Hc "dog"%string eq_refl Hin) as (k & Hdec & _ & Hk & _).
  exists k. split; [exact Hdec|].
  vm_compute in Hdec. by injection Hdec as <-.
Defined.


Lemma C4_counterexample :
  labels empty_labels = Some [] /\
  class_names empty_labels = None /\
  class_names empty_labels <> Some (sorted (py_list (py_set []))).
Proof. split; [reflexivity|]. split; [reflexivity|]. discriminate. Qed.

Lemma C4_witness :
  class_names cat_dog = Some ["cat"; "dog"]%string /\
  forall ms, class_names (self (run ms (new cat_dog))) = Some ["cat"; "dog"]%string.
Proof.
  assert (Hne : ["cat"; "dog"; "cat"]%string <> []) by discriminate.
  destruct (C4_derived_class_names three_paths ["cat"; "dog"; "cat"]%string
    None None (BaseSet.NvBool true) Hne) as (cn & Hcn & _ & _ & _ & _ & Hlife & Hex).
  destruct (Hex eq_refl) as [-> _]. split; [exact Hcn | exact Hlife].
Defined.

Lemma C5_counterexample :
  img_size zero_size_set = Some (SzInt 0) /\
  fst (_get_image_label_pair 0 (new zero_size_set)) =
    Ok (PyImage {| dims := (640, 480); mode := "RGB" |}, LInt 0) /\
  ~ decodes_resized (new zero_size_set) 0 0 0.
Proof.
  split; [reflexivity|]. split; [reflexivity|].
  intros Hc.
  destruct (Hc _ _ _ eq_refl) as (path & raw & s1 & img & Hp & Ho & _ & _ & Hs).
  vm_compute in Hp. injection Hp as <-.
  vm_compute in Ho. injection Ho as <- <-.
  vm_compute in Hs. discriminate Hs.
Qed.

Lemma C5_witness :
  img_size square_set = Some (SzTuple [SzInt 224; SzInt 224]) /\
  decodes_resized (new square_set) 0 224 224.
Proof.
  destruct (C5_resize_to_target three_paths None (Some (SzInt 224)) None None
    (BaseSet.NvBool true) (new square_set) 0 eq_refl) as (Hint & _).
  apply (Hint 224 eq_refl). lia.
Defined.


Lemma C7_witness :
  __getitem__ 0 (new dog_only) =
  (Raise ValueError,
   logged (new dog_only) [Call_open (png "a.png"); Call_convert "RGB"]).
Proof.
  assert (Hnot : "cat"%string ∉ ["dog"]%string).
  { intros Hin. apply list_elem_of_singleton in Hin. discriminate Hin. }
  destruct (C7_missing_class_raises (new dog_only) 0
    ["cat"; "dog"; "cat"]%string ["dog"]%string "cat"%string
    eq_refl eq_refl eq_refl Hnot) as (_ & _ & _ & Hraise).
  apply (Hraise (png "a.png") {| dims := (640, 480); mode := "RGB" |});
    reflexivity.
Defined.

Lemma C8_witness :
  fst (__getitem__ 0 (run (map M_getitem [1; 2; 0]) (new cat_dog))) =
  fst (__getitem__ 0 (new cat_dog)).
Proof.
  destruct (C8_retrieval_is_repeatable (new cat_dog) 0 [1; 2; 0])
    as (_ & Hrepeat).
  destruct (Hrepeat eq_refl) as (_ & _ & Hsame & _). exact Hsame.
Defined.

Lemma C9_counterexample :
  labels short_labels = Some ["cat"]%string /\
  length (img_paths short_labels) = 3%nat /\
  ~ lengths_agree short_labels.
Proof.
  split; [reflexivity|]. split; [reflexivity|].
  intros Hc. specialize (Hc ["cat"]%string eq_refl). discriminate Hc.
Qed.

Lemma C9_witness :
  lengths_agree (self (run [M_getitem 0; M_len] (new cat_dog))).
Proof.
  destruct (C9_lengths_as_given three_paths ["cat"; "dog"; "cat"]%string
    None None None (BaseSet.NvBool true) [M_getitem 0; M_len])
    as (_ & _ & Hagree & _).
  apply Hagree. reflexivity.
Defined.

Lemma C10_witness :
  exists cn, class_names dog_only = Some cn /\
    forall ms index out lbl s2,
      __getitem__ index (run ms (new dog_only)) = (Ok (out, lbl), s2) ->
      exists k raw,
        lbl = LInt k /\
        subscript ["cat"; "dog"; "cat"]%string index = Ok raw /\
        0 <= k /\ cn !! Z.to_nat k = Some raw.
Proof.
  assert (Hne : ["cat"; "dog"; "cat"]%string <> []) by discriminate.
  destruct (C10_class_index_whenever_labelled three_paths
    ["cat"; "dog"; "cat"]%string None None (Some ["dog"]%string)
    (BaseSet.NvBool true) Hne) as (cn & Hcn & Hint & _).
  exists cn. split; [exact Hcn | exact Hint].
Defined.

End Examples.

(** ** Subscripts *)

Section Subscripts.

Lemma subscript_out_of_range {A} (l : list A) (i : Z) :
  i < - Z.of_nat (length l) \/ Z.of_nat (length l) <= i ->
  subscript l i = Raise IndexError.
Proof.
  intros Hout. destruct (subscript l i) as [x|e] eqn:E.
  - apply subscript_Ok in E as [Hin _]. lia.
  - revert E. unfold subscript.
    destruct ((0 <=? _) && (_ <? _)); [|by intros [= <-]].
    destruct (l !! _); [done|]. by intros [= <-].
Qed.

Lemma subscript_in_range {A} (l : list A) (i : Z) :
  - Z.of_nat (length l) <= i < Z.of_nat (length l) ->
  exists x, subscript l i = Ok x.
Proof.
  intros Hin. destruct (Z.ltb_spec i 0) as [Hneg|Hpos].
  - destruct (subscript_nonneg l (i + Z.of_nat (length l))) as (x & _ & Hx);
      [lia|].
    exists x. rewrite <- Hx. unfold subscript.
    destruct (Z.ltb_spec i 0); [|lia].
    destruct (Z.ltb_spec (i + Z.of_nat (length l)) 0); [lia|]. done.
  - destruct (subscript_nonneg l i) as (x & _ & Hx); [lia|]. by exists x.
Qed.

(** A negative subscript is the subscript counted from the front. *)
Lemma subscript_negative {A} (l : list A) (i : Z) :
  - Z.of_nat (length l) <= i < 0 ->
  subscript l i = subscript l (i + Z.of_nat (length l)).
Proof.
  intros Hin. unfold subscript.
  destruct (Z.ltb_spec i 0); [|lia].
  destruct (Z.ltb_spec (i + Z.of_nat (length l)) 0); [lia|]. done.
Qed.

End Subscripts.

(** ** Indices and files *)

Section IndexProperties.
Context `{Libraries}.
Import ImageSet.

(** A retrieval depends on its index through the decode step only. *)
Lemma getitem_through_decode (i j : Z) (s : store) :
  _get_image_label_pair i s = _get_image_label_pair j s ->
  __getitem__ i s = __getitem__ j s.
Proof.
  intros Heq. unfold __getitem__. rewrite !getitem_run.
  change (BaseSet._get_image_label_pair i s) with (_get_image_label_pair i s).
  change (BaseSet._get_image_label_pair j s) with (_get_image_label_pair j s).
  by rewrite Heq.
Qed.

(** After the decode step a retrieval makes no library call. *)
Lemma getitem_calls (index : Z) (s : store) :
  calls (snd (__getitem__ index s)) =
  calls (snd (_get_image_label_pair index s)).
Proof.
  unfold __getitem__. rewrite getitem_run.
  change (BaseSet._get_image_label_pair index s)
    with (_get_image_label_pair index s).
  destruct (_get_image_label_pair index s) as [[[raw lbl]|e] s1]; [|done].
  destruct (BaseSet.data_augmentation _) as [f|].
  - destruct (f _ raw) as [v|e]; [|done].
    destruct v as [im|t|views|];
      try (by destruct (fst (BaseSet._normalize _ _))).
    by destruct (fst (comprehension BaseSet._normalize views _)).
  - destruct raw as [im|t|views|];
      try (by destruct (fst (BaseSet._normalize _ _))).
    by destruct (fst (comprehension BaseSet._normalize views _)).
Qed.

(** At a path the decode step reads that file, once, and no other. *)
Lemma decode_file_reads (index : Z) (s : store) (path : Path) :
  subscript (img_paths (self s)) index = Ok path ->
  exists c log,
    snd (_get_image_label_pair index s) = logged s (c :: log) /\
    file_read c = Some path /\ omap file_read log = [].
Proof.
  intros Hp. rewrite decode_phases, Hp, image_block_run, open_rgb_run.
  assert (Hres : forall raw s0,
    exists rest, snd (resize_block (img_size (self s)) raw s0) = logged s0 rest /\
                 omap file_read rest = []).
  { intros raw s0. rewrite resize_block_run.
    destruct (img_size (self s)) as [size|].
    - destruct (truthy_size (Some size)).
      + by eexists.
      + exists []. by rewrite logged_nil.
    - exists []. by rewrite logged_nil. }
  assert (Hend : forall raw pre,
    exists log,
      snd (let (r, s1) := resize_block (img_size (self s)) raw (logged s pre) in
           match r with
           | Ok img =>
               match label_block (self s) index with
               | Ok lbl => (Ok (PyImage img, lbl), s1)
               | Raise e => (Raise e, s1)
               end
           | Raise e => (Raise e, s1)
           end) = logged s log /\
      exists rest, log = pre ++ rest /\ omap file_read rest = []).
  { intros raw pre.
    destruct (Hres raw (logged s pre)) as (rest & Hs2 & Hrest).
    destruct (resize_block _ raw _) as [[img|e] s2]; cbn in Hs2; subst s2;
      rewrite logged_logged.
    - destruct (label_block (self s) index); eexists; (split; [done|]);
        by exists rest.
    - eexists. split; [done|]. by exists rest. }
  destruct (String.eqb (suffix path) ".dcm").
  - destruct (pydicom_dcmread path) as [ds|e]; [|by eexists _, []].
    destruct (dicom_pixel_array ds) as [arr|e]; [|by eexists _, [_]].
    destruct (Image_fromarray arr "RGB") as [raw|e]; [|by eexists _, [_; _]].
    destruct (Hend raw [Call_dcmread path; Call_pixel_array;
                        Call_fromarray "RGB"])
      as (log & Hs & rest & -> & Hrest).
    exists (Call_dcmread path),
           ([Call_pixel_array; Call_fromarray "RGB"] ++ rest).
    split; [exact Hs|]. split; [done|]. by rewrite omap_app, Hrest.
  - destruct (Image_open path) as [opened|e]; [|by eexists _, []].
    destruct (Image_convert opened "RGB") as [raw|e]; [|by eexists _, [_]].
    destruct (Hend raw [Call_open path; Call_convert "RGB"])
      as (log & Hs & rest & -> & Hrest).
    exists (Call_open path), ([Call_convert "RGB"] ++ rest).
    split; [exact Hs|]. split; [done|]. by rewrite omap_app, Hrest.
Qed.

(** X1. [__len__] is the number of paths, and the subscripts from
    [-len] to [len - 1] are the ones that reach a file: any other index
    makes both the decode step and [__getitem__] raise [IndexError]
    with the process untouched (no library call, no draw), so an empty
    dataset raises it at every index; an index in that range makes the
    decode step read a file, so the log grows. *)
Theorem X1_index_range (s : store) (index : Z) :
  let n := Z.of_nat (length (img_paths (self s))) in
  fst (__len__ s) = Ok n /\
  (index < - n \/ n <= index ->
     _get_image_label_pair index s = (Raise IndexError, s) /\
     __getitem__ index s = (Raise IndexError, s)) /\
  (- n <= index < n ->
     calls (snd (__getitem__ index s)) <> calls s) /\
  (calls (snd (__getitem__ index s)) = calls s <->
     index < - n \/ n <= index).
Proof.
  intros n.
  assert (Hout : index < - n \/ n <= index ->
     _get_image_label_pair index s = (Raise IndexError, s) /\
     __getitem__ index s = (Raise IndexError, s)).
  { intros Hrange.
    assert (Hdec : _get_image_label_pair index s = (Raise IndexError, s))
      by (by rewrite decode_phases, subscript_out_of_range).
    split; [done|]. unfold __getitem__. rewrite getitem_run.
    change (BaseSet._get_image_label_pair index s)
      with (_get_image_label_pair index s).
    by rewrite Hdec. }
  assert (Hin : - n <= index < n ->
     calls (snd (__getitem__ index s)) <> calls s).
  { intros Hrange.
    destruct (subscript_in_range (img_paths (self s)) index Hrange)
      as [path Hp].
    destruct (decode_file_reads index s path Hp) as (c & log & Hs & _).
    rewrite getitem_calls, Hs. cbn. intros Heq.
    apply (f_equal length) in Heq. rewrite length_app in Heq.
    cbn in Heq. lia. }
  split; [done|]. split; [done|]. split; [done|]. split.
  - intros Hsame. destruct (Z.lt_ge_cases index (- n)); [by left|].
    destruct (Z.lt_ge_cases index n); [|by right].
    by destruct Hin.
  - intros Hrange. by destruct (Hout Hrange) as [_ ->].
Qed.

(** X2. A negative index in range retrieves the item counted from the
    end: when the labels, if any, are as many as the paths, index [i]
    with [-len <= i < 0] gives the decode step and [__getitem__] exactly
    the outcome, log and process of index [i + len]. *)
Theorem X2_negative_index_wraps (s : store) (index : Z) :
  let n := Z.of_nat (length (img_paths (self s))) in
  - n <= index < 0 ->
  lengths_agree (self s) ->
  _get_image_label_pair index s = _get_image_label_pair (index + n) s /\
  __getitem__ index s = __getitem__ (index + n) s.
Proof.
  intros n Hrange Hagree.
  assert (Hdec : _get_image_label_pair index s =
                 _get_image_label_pair (index + n) s).
  { rewrite !decode_phases.
    rewrite (subscript_negative (img_paths (self s)) index Hrange). fold n.
    assert (Hlbl : label_block (self s) index =
                   label_block (self s) (index + n)).
    { unfold label_block. destruct (labels (self s)) as [ls|] eqn:El; [|done].
      assert (Hlen : Z.of_nat (length ls) = n)
        by (unfold n; by rewrite (Hagree ls El)).
      rewrite (subscript_negative ls index) by lia. by rewrite Hlen. }
    by rewrite Hlbl. }
  split; [done|]. by apply getitem_through_decode.
Qed.


End IndexProperties.

(** ** Augmentation and normalisation *)

Section TransformProperties.
Context `{Libraries}.
Import ImageSet.

Lemma decode_self (index : Z) (s : store) :
  self (snd (_get_image_label_pair index s)) = self s /\
  rng (snd (_get_image_label_pair index s)) = rng s.
Proof.
  destruct (decode_logged index s) as (log & Hany).
  by rewrite (Hany s eq_refl).
Qed.

(** The decode step looks at the paths, the labels, the class names and
    the size, and at nothing else of the process. *)
Lemma decode_outcome_configuration (index : Z) (s1 s2 : store) :
  img_paths (self s1) = img_paths (self s2) ->
  labels (self s1) = labels (self s2) ->
  class_names (self s1) = class_names (self s2) ->
  img_size (self s1) = img_size (self s2) ->
  fst (_get_image_label_pair index s1) = fst (_get_image_label_pair index s2).
Proof.
  intros Hp Hl Hc Hz. rewrite !decode_phases, Hp.
  destruct (subscript (img_paths (self s2)) index) as [path|e]; [|done].
  assert (Hlbl : label_block (self s1) index = label_block (self s2) index)
    by (unfold label_block; by rewrite Hl, Hc).
  assert (Himg : image_block (self s1) path s1 = image_block (self s2) path s1)
    by (by rewrite !image_block_run, Hz).
  destruct (image_block_logged (self s2) path s2) as (log & _ & Hany).
  rewrite Himg, (Hany s1), Hlbl.
  destruct (image_block (self s2) path s2) as [[img|e] s']; cbn; [|done].
  by destruct (label_block (self s2) index).
Qed.

(** The outcome of a retrieval is fixed by the object and the state of
    the generator. *)
Lemma getitem_outcome_same (index : Z) (s1 s2 : store) :
  self s1 = self s2 -> rng s1 = rng s2 ->
  fst (__getitem__ index s1) = fst (__getitem__ index s2).
Proof.
  intros Hself Hrng.
  destruct (decode_logged index s2) as (log & Hany).
  unfold __getitem__. rewrite !getitem_run.
  change (BaseSet._get_image_label_pair index s1)
    with (_get_image_label_pair index s1).
  change (BaseSet._get_image_label_pair index s2)
    with (_get_image_label_pair index s2).
  rewrite (Hany s1 Hself), (Hany s2 eq_refl).
  destruct (fst (_get_image_label_pair index s2)) as [[raw lbl]|e]; [|done].
  cbn [self rng logged]. rewrite Hself, Hrng.
  assert (Hgen : forall (augmented : result pyval) (p1 p2 : store),
    BaseSet.base (self p1) = BaseSet.base (self p2) ->
    fst (match augmented with
         | Ok (PyList views) =>
             match fst (comprehension BaseSet._normalize views p1) with
             | Ok outs => (Ok (PyList outs, lbl), p1)
             | Raise e => (Raise e, p1)
             end
         | Ok v =>
             match fst (BaseSet._normalize v p1) with
             | Ok out => (Ok (out, lbl), p1)
             | Raise e => (Raise e, p1)
             end
         | Raise e => (Raise e, p1)
         end) =
    fst (match augmented with
         | Ok (PyList views) =>
             match fst (comprehension BaseSet._normalize views p2) with
             | Ok outs => (Ok (PyList outs, lbl), p2)
             | Raise e => (Raise e, p2)
             end
         | Ok v =>
             match fst (BaseSet._normalize v p2) with
             | Ok out => (Ok (out, lbl), p2)
             | Raise e => (Raise e, p2)
             end
         | Raise e => (Raise e, p2)
         end)).
  { intros [v|e] p1 p2 Hb; [|done].
    destruct v as [im|t|views|];
      try (rewrite (normalize_base _ p1 p2 Hb);
           by destruct (fst (BaseSet._normalize _ p2))).
    rewrite (comprehension_base _ p1 p2 Hb).
    by destruct (fst (comprehension BaseSet._normalize views p2)). }
  destruct (BaseSet.data_augmentation (BaseSet.base (self s2))) as [f|].
  - apply (Hgen (f (rng s2) raw)). cbn. by rewrite Hself.
  - apply (Hgen (Ok raw)). cbn. by rewrite Hself.
Qed.

(** X4. The three settings of [normalize], seen from a retrieval
    without augmentation at an index whose decode step returns the image
    [im]: with [True] the result is
    [min_max_normalize_tensor(to_tensor(im), 0, 1)]; with [False] or
    [None] it is [to_tensor(im)] itself; with a callable it is what the
    callable returns on [to_tensor(im)], and an exception of the
    callable is the outcome.  In every case the label and the process of
    the decode step are returned. *)
Theorem X4_normalize_settings (paths : list Path) (lbls : option (list string))
    (size : option size_value) (cn : option (list string))
    (norm : BaseSet.normalize_value) (s s1 : store) (index : Z)
    (im : image) (lbl : label) :
  self s = __init__ paths lbls size None cn norm ->
  _get_image_label_pair index s = (Ok (PyImage im, lbl), s1) ->
  __getitem__ index s =
  (match norm with
   | BaseSet.NvBool true =>
       Ok (PyTensor (min_max_normalize_tensor (pil_to_tensor im) 0 1), lbl)
   | BaseSet.NvBool false | BaseSet.NvNone =>
       Ok (PyTensor (pil_to_tensor im), lbl)
   | BaseSet.NvCallable f =>
       match f (PyTensor (pil_to_tensor im)) with
       | Ok out => Ok (out, lbl)
       | Raise e => Raise e
       end
   end, s1).
Proof.
  intros Hself Hdec.
  pose proof (decode_self index s) as [Hs1 _]. rewrite Hdec in Hs1. cbn in Hs1.
  unfold __getitem__. rewrite getitem_run.
  change (BaseSet._get_image_label_pair index s)
    with (_get_image_label_pair index s).
  rewrite Hdec. cbn [BaseSet.base subclass].
  rewrite Hs1, Hself. cbn [super __init__ BaseSet.__init__
                            BaseSet.data_augmentation].
  rewrite normalize_run. cbn [BaseSet.base subclass].
  rewrite Hs1, Hself. cbn.
  destruct norm as [[|]| |f]; cbn; try done.
  by destruct (f (PyTensor (pil_to_tensor im))).
Qed.

(** X5. [set_data_augmentation] returns None and replaces the
    augmentation, leaving every other attribute, the generator and the
    log as they were; of two calls in a row the second one counts.  It
    does not change what the decode step returns, and after it a
    retrieval no longer depends on the augmentation that was replaced:
    objects of the same configuration give the same outcome.  Setting
    None makes retrievals repeatable again. *)
Theorem X5_set_data_augmentation (s : store) (a b : option augmentation)
    (index : Z) :
  let s' := snd (set_data_augmentation a s) in
  fst (set_data_augmentation a s) = Ok tt /\
  BaseSet.data_augmentation (super (self s')) = a /\
  same_configuration (self s') (self s) /\
  rng s' = rng s /\ calls s' = calls s /\
  snd (set_data_augmentation a (snd (set_data_augmentation b s))) = s' /\
  fst (_get_image_label_pair index s') = fst (_get_image_label_pair index s) /\
  (forall s0,
      same_configuration (self s0) (self s) -> rng s0 = rng s ->
      fst (__getitem__ index (snd (set_data_augmentation a s0))) =
      fst (__getitem__ index s')) /\
  (a = None ->
     fst (__getitem__ index (snd (__getitem__ index s'))) =
     fst (__getitem__ index s')).
Proof.
  intros s'.
  split; [done|]. split; [done|]. split; [done|]. split; [done|].
  split; [done|]. split; [done|]. split; [|split].
  - by apply decode_outcome_configuration.
  - intros s0 (Hp & Hl & Hc & Hz & Hn) Hrng.
    apply getitem_outcome_same; [|done].
    unfold s'. cbn. by rewrite Hp, Hl, Hc, Hz, Hn.
  - intros ->.
    destruct (getitem_no_augmentation index s' eq_refl) as (log & Hany).
    by rewrite (Hany (snd (__getitem__ index s')) (getitem_self index s')).
Qed.

Lemma run_augmentation (ms : list method_call) (s : store) :
  BaseSet.data_augmentation (super (self (run ms s))) =
  last_augmentation ms (BaseSet.data_augmentation (super (self s))).
Proof.
  revert s. induction ms as [|m ms IH]; intros s; [done|].
  cbn [run last_augmentation]. rewrite IH.
  destruct m as [a|index|]; cbn [invoke]; [done| |done].
  by rewrite getitem_self.
Qed.

(** X6. For the life of an instance the augmentation in force is the
    argument of the last [set_data_augmentation], or the constructor's
    if there was none; and the [normalize] attribute is never the bool
    [True]: whenever it is true it is a callable, the default
    normaliser when [True] was given, so [self.normalize(img)] is never
    a call on a bool. *)
Theorem X6_attributes_over_a_lifetime (paths : list Path)
    (lbls : option (list string)) (size : option size_value)
    (aug : option augmentation) (cn : option (list string))
    (norm : BaseSet.normalize_value) (ms : list method_call) :
  let s := run ms (new (__init__ paths lbls size aug cn norm)) in
  let n := BaseSet.normalize (super (self s)) in
  BaseSet.data_augmentation (super (self s)) = last_augmentation ms aug /\
  n <> BaseSet.NvBool true /\
  (BaseSet.truthy n = true -> exists f, n = BaseSet.NvCallable f) /\
  (norm = BaseSet.NvBool true -> n = BaseSet.NvCallable default_normalizer) /\
  (norm <> BaseSet.NvBool true -> n = norm).
Proof.
  intros s n.
  destruct (run_configuration ms (new (__init__ paths lbls size aug cn norm)))
    as (_ & _ & _ & _ & Hn).
  fold s in Hn. fold n in Hn. cbn in Hn.
  split; [apply run_augmentation|].
  rewrite Hn. destruct norm as [[|]| |f]; cbn; repeat split; try done;
    intros _; by eexists.
Qed.

End TransformProperties.

(** ** Lists of views *)

Section ViewProperties.
Context `{Libraries} {O : Type} `{!BaseSet.Subclass O}.



End ViewProperties.

(** ** The label encoding *)

Section LabelProperties.
Context `{Libraries}.
Import ImageSet.

Lemma decode_label (index : Z) (s s' : store) (out : pyval) (lbl : label) :
  _get_image_label_pair index s = (Ok (out, lbl), s') ->
  label_block (self s) index = Ok lbl.
Proof.
  rewrite decode_phases.
  destruct (subscript (img_paths (self s)) index) as [path|e]; [|done].
  destruct (image_block (self s) path s) as [[img|e] s1]; [|done].
  destruct (label_block (self s) index) as [lbl0|e]; [|done].
  by intros [= _ <- _].
Qed.

(** With labels and class names set, a returned label is the position
    of the raw label. *)
Lemma label_block_index (obj : t) (index k : Z) (ls cn : list string) :
  labels obj = Some ls -> class_names obj = Some cn ->
  label_block obj index = Ok (LInt k) ->
  exists raw, subscript ls index = Ok raw /\ list_index cn raw = Ok k.
Proof.
  intros Hl Hc. unfold label_block. rewrite Hl, Hc.
  destruct (subscript ls index) as [raw|e]; [|done].
  destruct (list_index cn raw) as [k'|e] eqn:Ek; [|done].
  intros [= <-]. by exists raw.
Qed.

(** In an ascending list without repetition, positions and elements are
    ordered alike. *)
Lemma sorted_positions (cn : list string) (a b : nat) (x y : string) :
  Sorted String.le cn -> NoDup cn ->
  cn !! a = Some x -> cn !! b = Some y ->
  ((a <= b)%nat <-> String.le x y).
Proof.
  intros Hsorted Hnodup Ha Hb.
  apply (Sorted_StronglySorted String.le) in Hsorted.
  assert (Hlt : forall i j u v,
    cn !! i = Some u -> cn !! j = Some v -> (i < j)%nat -> String.le u v).
  { clear -Hsorted. induction Hsorted as [|z l _ IH Hall]; [done|].
    intros [|i] [|j] u v Hi Hj Hij; cbn in *; try lia.
    - injection Hi as <-. rewrite Forall_forall in Hall.
      apply Hall. by eapply list_elem_of_lookup_2.
    - eapply IH; [done..|lia]. }
  split.
  - intros Hab. destruct (decide (a = b)) as [->|Hne].
    + rewrite Ha in Hb. injection Hb as <-. done.
    + eapply Hlt; [done..|lia].
  - intros Hxy. destruct (decide (a <= b)%nat) as [|Hgt]; [done|].
    assert (Hyx : String.le y x) by (eapply Hlt; [done..|lia]).
    assert (x = y) as -> by (by apply (anti_symm String.le)).
    pose proof (NoDup_lookup _ _ _ _ Hnodup Ha Hb). lia.
Qed.

(** X8. The class index decodes back to the raw label, and it tells
    labels apart exactly as the raw labels do: with [labels] and
    [class_names] set, if the decode step returns [ki] at index [i] and
    [kj] at index [j], then [class_names[ki]] is [labels[i]],
    [class_names[kj]] is [labels[j]], and [ki = kj] exactly when the
    two raw labels are equal. *)
Theorem X8_class_index_round_trip (s si sj : store) (i j ki kj : Z)
    (oi oj : pyval) (ls cn : list string) :
  labels (self s) = Some ls ->
  class_names (self s) = Some cn ->
  _get_image_label_pair i s = (Ok (oi, LInt ki), si) ->
  _get_image_label_pair j s = (Ok (oj, LInt kj), sj) ->
  exists ri rj,
    subscript ls i = Ok ri /\ subscript ls j = Ok rj /\
    subscript cn ki = Ok ri /\ subscript cn kj = Ok rj /\
    (ki = kj <-> ri = rj).
Proof.
  intros Hl Hc Hi Hj.
  apply decode_label in Hi, Hj.
  destruct (label_block_index _ _ _ _ _ Hl Hc Hi) as (ri & Hri & Hki).
  destruct (label_block_index _ _ _ _ _ Hl Hc Hj) as (rj & Hrj & Hkj).
  exists ri, rj. split; [done|]. split; [done|].
  pose proof (list_index_Ok _ _ _ Hki) as (Hbi & Hxi & _).
  pose proof (list_index_Ok _ _ _ Hkj) as (Hbj & Hxj & _).
  destruct (subscript_nonneg cn ki Hbi) as (xi & Hxi' & ->).
  destruct (subscript_nonneg cn kj Hbj) as (xj & Hxj' & ->).
  split; [congruence|]. split; [congruence|]. split.
  - intros ->. congruence.
  - intros ->. congruence.
Qed.

(** X9. A derived vocabulary numbers the labels in ascending order:
    when the constructor derived [class_names] from [labels], the class
    indices returned at two indices compare as the raw labels do in
    lexicographic order, and every class index is below the number of
    labels. *)
Theorem X9_derived_index_is_monotone (paths : list Path) (ls : list string)
    (size : option size_value) (aug : option augmentation)
    (norm : BaseSet.normalize_value) (s si sj : store) (i j ki kj : Z)
    (oi oj : pyval) :
  self s = __init__ paths (Some ls) size aug None norm ->
  _get_image_label_pair i s = (Ok (oi, LInt ki), si) ->
  _get_image_label_pair j s = (Ok (oj, LInt kj), sj) ->
  exists ri rj,
    subscript ls i = Ok ri /\ subscript ls j = Ok rj /\
    (ki <= kj <-> String.le ri rj) /\
    0 <= ki < Z.of_nat (length ls).
Proof.
  intros Hself Hi Hj.
  assert (Hl : labels (self s) = Some ls) by (by rewrite Hself).
  assert (Hne : ls <> []).
  { intros ->. apply decode_label in Hi. unfold label_block in Hi.
    rewrite Hl, subscript_nil in Hi. done. }
  assert (Hc : class_names (self s) = Some (sorted (py_list (py_set ls))))
    by (rewrite Hself; by destruct ls).
  destruct (sorted_set_spec ls) as (Hsorted & Hnodup & Hmem).
  apply decode_label in Hi, Hj.
  destruct (label_block_index _ _ _ _ _ Hl Hc Hi) as (ri & Hri & Hki).
  destruct (label_block_index _ _ _ _ _ Hl Hc Hj) as (rj & Hrj & Hkj).
  exists ri, rj. split; [done|]. split; [done|].
  pose proof (list_index_Ok _ _ _ Hki) as (Hbi & Hxi & _).
  pose proof (list_index_Ok _ _ _ Hkj) as (Hbj & Hxj & _).
  split.
  - rewrite <- (sorted_positions _ _ _ _ _ Hsorted Hnodup Hxi Hxj). lia.
  - assert (length (sorted (py_list (py_set ls))) <= length ls)%nat.
    { apply submseteq_length, NoDup_submseteq; [done|].
      intros x. apply Hmem. }
    lia.
Qed.

(** X10. The derived vocabulary depends on which labels occur, not on
    their order or how often: two constructions whose [labels] hold the
    same values derive the same [class_names], whatever the rest of the
    arguments. *)
Theorem X10_derived_class_names_by_content (paths1 paths2 : list Path)
    (l1 l2 : list string) (size1 size2 : option size_value)
    (aug1 aug2 : option augmentation) (norm1 norm2 : BaseSet.normalize_value) :
  (forall x, x ∈ l1 <-> x ∈ l2) ->
  class_names (__init__ paths1 (Some l1) size1 aug1 None norm1) =
  class_names (__init__ paths2 (Some l2) size2 aug2 None norm2).
Proof.
  intros Hsame.
  assert (Hset : py_set l1 = py_set l2).
  { unfold py_set. apply set_eq. intros x.
    by rewrite !elem_of_list_to_set. }
  unfold __init__. cbn [class_names truthy_seq].
  destruct l1 as [|x1 l1], l2 as [|x2 l2]; cbn [truthy_seq].
  - done.
  - exfalso. apply (not_elem_of_nil x2), Hsame, elem_of_cons. by left.
  - exfalso. apply (not_elem_of_nil x1), Hsame, elem_of_cons. by left.
  - by rewrite Hset.
Qed.

End LabelProperties.

(** ** The size handed to [resize] *)

Section SizeProperties.
Context `{Libraries}.
Import ImageSet.

(** X11. What [resize] is called with, for any [img_size] given: if the
    value is false (0, an empty tuple or list) there is no call and the
    opened image is returned; otherwise there is one call, with the
    NEAREST filter and with the value itself when it is a tuple, of any
    length, and with the pair of the value with itself when it is not,
    so a list [[w, h]] reaches [resize] as a pair of lists. *)
Theorem X11_size_handed_to_resize (paths : list Path)
    (lbls : option (list string)) (v : size_value)
    (aug : option augmentation) (cn : option (list string))
    (norm : BaseSet.normalize_value) (s s1 s2 : store) (index : Z)
    (path : Path) (raw : image) (r : result (pyval * label)) :
  self s = __init__ paths lbls (Some v) aug cn norm ->
  subscript paths index = Ok path ->
  open_rgb path s = (Ok raw, s1) ->
  _get_image_label_pair index s = (r, s2) ->
  let handed := if isinstance_tuple (Some v) then v else SzTuple [v; v] in
  if truthy_size (Some v) then
    s2 = logged s1 [Call_resize handed NEAREST] /\
    forall out lbl, r = Ok (out, lbl) ->
      exists img, Image_resize raw handed NEAREST = Ok img /\ out = PyImage img
  else
    s2 = s1 /\ forall out lbl, r = Ok (out, lbl) -> out = PyImage raw.
Proof.
  intros Hself Hp Ho. rewrite decode_phases.
  replace (img_paths (self s)) with paths by (by rewrite Hself).
  rewrite Hp, image_block_run, Ho, resize_block_run.
  assert (Hsize : img_size (self s) =
    if truthy_size (Some v) && negb (isinstance_tuple (Some v))
    then Some (SzTuple [v; v]) else Some v) by (by rewrite Hself).
  rewrite Hsize. cbv zeta.
  destruct (truthy_size (Some v)) eqn:Et; cbn [andb].
  - destruct (isinstance_tuple (Some v)) eqn:Ei; cbn [negb];
      [rewrite Et|cbn [truthy_size]];
      (destruct (Image_resize raw _ NEAREST) as [img|e];
       [destruct (label_block (self s) index) as [lbl0|e]|]);
      intros [= <- <-]; (split; [done|]); intros out lbl; try done;
      intros [= <- _]; by exists img.
  - rewrite Et.
    destruct (label_block (self s) index) as [lbl0|e];
      intros [= <- <-]; (split; [done|]); intros out lbl; try done.
    by intros [= <- _].
Qed.

End SizeProperties.

(** ** Failures of the decode step *)

Section FailureProperties.
Context `{Libraries}.
Import ImageSet.

Lemma subscript_Raise {A} (l : list A) (i : Z) (e : exn) :
  subscript l i = Raise e ->
  e = IndexError /\
  (i < - Z.of_nat (length l) \/ Z.of_nat (length l) <= i).
Proof.
  intros Hraise. split.
  - revert Hraise. unfold subscript.
    destruct ((0 <=? _) && (_ <? _)); [|by intros [= <-]].
    destruct (l !! _); [done|]. by intros [= <-].
  - destruct (Z.lt_ge_cases i (- Z.of_nat (length l))); [by left|].
    destruct (Z.lt_ge_cases i (Z.of_nat (length l))); [|by right].
    destruct (subscript_in_range l i) as [x Hx]; [lia|]. congruence.
Qed.

(** X12. The order and the kinds of failure at an index with a path.
    The image comes first: if reading, converting or resizing raises,
    that exception is the outcome of the decode step and of
    [__getitem__], whatever the labels are.  The label is resolved only
    after the image is there, so a label failure is raised with the file
    already read; it is [IndexError] exactly when [labels] has no entry
    at the index, and [ValueError] exactly when [class_names] is set and
    lacks the raw label. *)
Theorem X12_failures_of_the_decode_step (s : store) (index : Z) (path : Path) :
  subscript (img_paths (self s)) index = Ok path ->
  (forall e s1,
      image_block (self s) path s = (Raise e, s1) ->
      _get_image_label_pair index s = (Raise e, s1) /\
      __getitem__ index s = (Raise e, s1)) /\
  (forall img s1 e,
      image_block (self s) path s = (Ok img, s1) ->
      label_block (self s) index = Raise e ->
      _get_image_label_pair index s = (Raise e, s1) /\
      __getitem__ index s = (Raise e, s1) /\
      calls s1 <> calls s /\
      ((e = IndexError /\
        exists ls, labels (self s) = Some ls /\
          (index < - Z.of_nat (length ls) \/ Z.of_nat (length ls) <= index)) \/
       (e = ValueError /\
        exists ls cn raw,
          labels (self s) = Some ls /\ class_names (self s) = Some cn /\
          subscript ls index = Ok raw /\ raw ∉ cn))).
Proof.
  intros Hp.
  assert (Hget : forall e s1,
    _get_image_label_pair index s = (Raise e, s1) ->
    __getitem__ index s = (Raise e, s1)).
  { intros e s1 Hdec. unfold __getitem__. rewrite getitem_run.
    change (BaseSet._get_image_label_pair index s)
      with (_get_image_label_pair index s).
    by rewrite Hdec. }
  split.
  - intros e s1 Himg.
    assert (Hdec : _get_image_label_pair index s = (Raise e, s1))
      by (by rewrite decode_phases, Hp, Himg).
    split; [done|]. by apply Hget.
  - intros img s1 e Himg Hlbl.
    assert (Hdec : _get_image_label_pair index s = (Raise e, s1))
      by (by rewrite decode_phases, Hp, Himg, Hlbl).
    split; [done|]. split; [by apply Hget|]. split.
    + destruct (decode_file_reads index s path Hp) as (c & log & Hs & _).
      rewrite Hdec in Hs. cbn in Hs. subst s1. cbn. intros Heq.
      apply (f_equal length) in Heq. rewrite length_app in Heq.
      cbn in Heq. lia.
    + revert Hlbl. unfold label_block.
      destruct (labels (self s)) as [ls|]; [|done].
      destruct (subscript ls index) as [raw|e'] eqn:Eraw.
      * destruct (class_names (self s)) as [cn|]; [|done].
        destruct (list_index cn raw) as [k|e'] eqn:Ek; [done|].
        intros [= <-]. apply list_index_Raise in Ek as [-> Hnot].
        right. split; [done|]. by exists ls, cn, raw.
      * intros [= <-]. apply subscript_Raise in Eraw as [-> Hrange].
        left. split; [done|]. by exists ls.
Qed.

End FailureProperties.

(** ** The further properties at work in the concrete world *)

Section MoreExamples.
Import Demo ImageSet.

Lemma X1_witness :
  __getitem__ 3 (new cat_dog) = (Raise IndexError, new cat_dog) /\
  __getitem__ (-4) (new cat_dog) = (Raise IndexError, new cat_dog).
Proof.
  destruct (X1_index_range (new cat_dog) 3) as (_ & Hhigh & _).
  destruct (X1_index_range (new cat_dog) (-4)) as (_ & Hlow & _).
  split.
  - apply Hhigh. right. cbn. lia.
  - apply Hlow. left. cbn. lia.
Defined.

Lemma X2_witness :
  __getitem__ (-1) (new cat_dog) = __getitem__ 2 (new cat_dog).
Proof.
  assert (Hagree : lengths_agree (self (new cat_dog))).
  { intros ls Hls. injection Hls as <-. reflexivity. }
  assert (Hrange : - Z.of_nat (length (img_paths (self (new cat_dog)))) <= -1 < 0)
    by (cbn; lia).
  destruct (X2_negative_index_wraps (new cat_dog) (-1) Hrange Hagree)
    as [_ Hget].
  exact Hget.
Defined.


Lemma X4_witness :
  __getitem__ 0 (new unnormalized_set) =
  (Ok (PyTensor [3; 480; 640], LInt 0),
   logged (new unnormalized_set) [Call_open (png "a.png"); Call_convert "RGB"]).
Proof.
  assert (Hdec : _get_image_label_pair 0 (new unnormalized_set) =
    (Ok (@PyImage libraries {| dims := (640, 480); mode := "RGB" |}, LInt 0),
     logged (new unnormalized_set)
       [Call_open (png "a.png"); Call_convert "RGB"])) by reflexivity.
  exact (X4_normalize_settings three_paths (Some ["cat"; "dog"; "cat"]%string)
    None None (BaseSet.NvBool false) (new unnormalized_set) _ 0 _ _
    eq_refl Hdec).
Defined.

Lemma X5_witness :
  let s' := snd (set_data_augmentation None (new random_set)) in
  fst (__getitem__ 0 (snd (__getitem__ 0 s'))) = fst (__getitem__ 0 s').
Proof.
  destruct (X5_set_data_augmentation (new random_set) None None 0)
    as (_ & _ & _ & _ & _ & _ & _ & _ & Hrepeat).
  exact (Hrepeat eq_refl).
Defined.

Lemma X6_witness :
  let s := run [M_set_data_augmentation (Some two_views); M_getitem 0]
               (new cat_dog) in
  BaseSet.data_augmentation (super (self s)) = Some two_views /\
  exists f, BaseSet.normalize (super (self s)) = BaseSet.NvCallable f.
Proof.
  destruct (X6_attributes_over_a_lifetime three_paths
    (Some ["cat"; "dog"; "cat"]%string) None None None (BaseSet.NvBool true)
    [M_set_data_augmentation (Some two_views); M_getitem 0])
    as (Haug & _ & Hcallable & _).
  split; [exact Haug|]. apply Hcallable. reflexivity.
Defined.


Lemma X8_witness :
  exists ri rj,
    subscript ["cat"; "dog"; "cat"]%string 0 = Ok ri /\
    subscript ["cat"; "dog"; "cat"]%string 2 = Ok rj /\
    subscript ["cat"; "dog"]%string 0 = Ok ri /\
    subscript ["cat"; "dog"]%string 0 = Ok rj /\
    (0 = 0 <-> ri = rj).
Proof.
  exact (X8_class_index_round_trip (new cat_dog) _ _ 0 2 0 0 _ _
    ["cat"; "dog"; "cat"]%string ["cat"; "dog"]%string
    eq_refl eq_refl eq_refl eq_refl).
Defined.

Lemma X9_witness :
  exists ri rj,
    subscript ["cat"; "dog"; "cat"]%string 0 = Ok ri /\
    subscript ["cat"; "dog"; "cat"]%string 1 = Ok rj /\
    (0 <= 1 <-> String.le ri rj) /\
    0 <= 0 < 3.
Proof.
  exact (X9_derived_index_is_monotone three_paths
    ["cat"; "dog"; "cat"]%string None None (BaseSet.NvBool true)
    (new cat_dog) _ _ 0 1 0 1 _ _ eq_refl eq_refl eq_refl).
Defined.

Lemma X10_witness :
  class_names cat_dog =
  class_names (__init__ [] (Some ["dog"; "cat"]%string) None None None
                 BaseSet.NvNone).
Proof.
  apply (X10_derived_class_names_by_content three_paths []
    ["cat"; "dog"; "cat"]%string ["dog"; "cat"]%string).
  intros x. rewrite !elem_of_cons, !elem_of_nil. tauto.
Defined.

Lemma X11_witness :
  snd (_get_image_label_pair 0 (new list_size_set)) =
  logged (logged (new list_size_set) [Call_open (png "a.png"); Call_convert "RGB"])
    [Call_resize (SzTuple [SzList [SzInt 64; SzInt 64];
                           SzList [SzInt 64; SzInt 64]]) NEAREST].
Proof.
  destruct (X11_size_handed_to_resize three_paths None
    (SzList [SzInt 64; SzInt 64]) None None (BaseSet.NvBool true)
    (new list_size_set)
    (logged (new list_size_set) [Call_open (png "a.png"); Call_convert "RGB"])
    (snd (_get_image_label_pair 0 (new list_size_set))) 0 (png "a.png")
    {| dims := (640, 480); mode := "RGB" |}
    (fst (_get_image_label_pair 0 (new list_size_set)))
    eq_refl eq_refl eq_refl eq_refl) as [Hs _].
  exact Hs.
Defined.

Lemma X12_witness :
  __getitem__ 0 (new missing_file_set) =
  (Raise (LibraryError "FileNotFoundError"),
   logged (new missing_file_set) [Call_open (png "missing.png")]).
Proof.
  destruct (X12_failures_of_the_decode_step (new missing_file_set) 0
    (png "missing.png") eq_refl) as (Himage & _).
  destruct (Himage (LibraryError "FileNotFoundError")
    (logged (new missing_file_set) [Call_open (png "missing.png")]) eq_refl)
    as [_ Hget].
  exact Hget.
Defined.

End MoreExamples.
